(** * Doctor upsert form and dashboard stats card: a shallow embedding

    Sources embedded here:
    - [src/app/(protected)/doctors/_components/upsert-doctor-form.tsx]
      ([formSchema], [defaultValues], the reset effect, [handleSubmit],
      [handleDeleteDoctorClick]);
    - [src/app/(protected)/dashboard/_components/stats-card.tsx] ([StatsCard]).

    JavaScript numbers are IEEE-754 binary64 values, which is what Rocq's
    primitive [float] is, so [*] and [/] below are the very operations the
    program performs.  Strings are sequences of code units; the embedding
    uses [string], reading each [ascii] as a code unit below 256. *)

From Stdlib Require Import ZArith NArith Floats Ascii String.
From Stdlib Require Import DecimalString DecimalPos DecimalZ.
From Stdlib Require Uint63.
From stdpp Require Import base option list strings gmap.

Local Open Scope string_scope.
Local Open Scope Z_scope.

(** ** The JavaScript built-ins the two components call *)
Module JS.

(** [𝔽(z)]: the number value of a mathematical integer (round to nearest,
    ties to even; exact below 2^53). *)
Definition Number_of_Z (z : Z) : float :=
  SF2Prim (binary_normalize prec emax z 0 false).

(** [Number.isNaN]. *)
Definition isNaN (x : float) : bool := PrimFloat.is_nan x.

(** [ToBoolean] on a number: [+0], [-0] and [NaN] are falsy. *)
Definition truthy (x : float) : bool :=
  negb (PrimFloat.eqb x 0%float) && negb (isNaN x).

(** White space and line terminators among the code units below 256:
    TAB, LF, VT, FF, CR, SP and NBSP. *)
Definition is_white (c : ascii) : bool :=
  match N_of_ascii c with
  | 9%N | 10%N | 11%N | 12%N | 13%N | 32%N | 160%N => true
  | _ => false
  end.

Fixpoint trimStart (s : string) : string :=
  match s with
  | EmptyString => EmptyString
  | String c s' => if is_white c then trimStart s' else s
  end.

Fixpoint trimEnd (s : string) : string :=
  match s with
  | EmptyString => EmptyString
  | String c s' =>
      match trimEnd s' with
      | EmptyString => if is_white c then EmptyString else String c EmptyString
      | r => String c r
      end
  end.

(** [String.prototype.trim]. *)
Definition trim (s : string) : string := trimEnd (trimStart s).

(** [a < b] on two strings: lexicographic on code units, a proper prefix
    is smaller. *)
Definition str_lt (a b : string) : bool := String.ltb a b.

(** [a >= b] on two strings is the negation of [a < b]. *)
Definition str_ge (a b : string) : bool := negb (str_lt a b).

(** The value of a code unit as a digit in the given radix. *)
Definition digit_value (radix : N) (c : ascii) : option N :=
  let n := N_of_ascii c in
  let d :=
    if (48 <=? n)%N && (n <=? 57)%N then Some (n - 48)%N
    else if (97 <=? n)%N && (n <=? 122)%N then Some (n - 87)%N
    else if (65 <=? n)%N && (n <=? 90)%N then Some (n - 55)%N
    else None in
  match d with
  | Some v => if (v <? radix)%N then Some v else None
  | None => None
  end.

(** The longest prefix of radix digits, as a mathematical integer;
    [None] when that prefix is empty. *)
Fixpoint parse_digits (radix : N) (s : string) (acc : option N) : option N :=
  match s with
  | EmptyString => acc
  | String c s' =>
      match digit_value radix c with
      | Some d =>
          parse_digits radix s'
            (Some (match acc with Some a => a * radix + d | None => d end)%N)
      | None => acc
      end
  end.

(** [parseInt(s)] with no radix argument: leading white space is dropped,
    a sign is read, a [0x]/[0X] prefix selects radix 16, and the longest
    digit prefix is converted; no digit gives [NaN]. *)
Definition parseInt (s : string) : float :=
  let s1 := trimStart s in
  let '(neg, s2) :=
    match s1 with
    | String "-" r => (true, r)
    | String "+" r => (false, r)
    | _ => (false, s1)
    end in
  let '(radix, s3) :=
    match s2 with
    | String "0" (String "x" r) => (16%N, r)
    | String "0" (String "X" r) => (16%N, r)
    | _ => (10%N, s2)
    end in
  match parse_digits radix s3 None with
  | None => nan
  | Some 0%N => if neg then (-0)%float else 0%float
  | Some n => Number_of_Z (if neg then - Z.of_N n else Z.of_N n)
  end.

(** The decimal numeral of an integer, with a leading [-] when negative. *)
Definition digits (z : Z) : string := NilZero.string_of_int (Z.to_int z).

(** [Number.prototype.toString()] on a number that holds the integer [z]
    exactly, for [z] of magnitude below 2^53: its decimal numeral.  This
    is [Number_toString] below on those numbers; it says nothing of the
    other ones. *)
Definition toString (z : Z) : string := NilZero.string_of_int (Z.to_int z).

(** *** [Number::toString] in radix 10, on every number

    For a finite number [x] other than zero the language takes integers
    [n], [k] and [s] with [k >= 1] and [10^(k-1) <= s < 10^k] such that
    [s * 10^(n-k)] reads back as [x], with [k] as small as possible and,
    among several [s], the one whose value is closest to [x] (the even one
    at equal distance); it then lays the [k] digits of [s] out around the
    position [n], in positional notation when [-6 < n <= 21] and in
    exponent notation otherwise. *)

Fixpoint zeros (n : nat) : string :=
  match n with
  | O => ""
  | S m => String "0" (zeros m)
  end.

Section Shortest.

(** The magnitude of [x] is [m * 2^e]. *)
Variables (m : positive) (e : Z).

(** The magnitude is [vn / dn]; the reals that read back as [x] are those
    between [ln / dn] and [hn / dn], the two ends included when [m] is
    even.  The lower end is nearer when [x] is a power of two. *)
Definition dn : Z := 2 ^ Z.max 0 (2 - e).
Definition mu : Z := 2 ^ Z.max 0 (e - 2).
Definition vn : Z := 4 * Zpos m * mu.
Definition hn : Z := (4 * Zpos m + 2) * mu.
Definition ln : Z :=
  (if (Zpos m =? 2 ^ 52) && (-1074 <? e)
   then 4 * Zpos m - 1 else 4 * Zpos m - 2) * mu.
Definition inclusive : bool := Z.even (Zpos m).

(** The [n] with [10^(n-1) <= m * 2^e < 10^n]. *)
Definition n0 : Z :=
  if dn <=? vn
  then Z.of_nat (String.length (digits (vn / dn)))
  else Z.of_nat (String.length (digits (Zpos m * 5 ^ (- e)))) + e.

(** [s * 10^q] compared with [x / dn]. *)
Definition cmp10 (s q x : Z) : comparison :=
  (s * 10 ^ Z.max 0 q * dn ?= x * 10 ^ Z.max 0 (- q)).

(** Whether [s * 10^q] reads back as [x]. *)
Definition inside (s q : Z) : bool :=
  match cmp10 s q ln, cmp10 s q hn with
  | Gt, Lt => true
  | Eq, Lt | Gt, Eq => inclusive
  | _, _ => false
  end.

(** The first [k] digits of the magnitude. *)
Definition prefix (k : Z) : Z :=
  if k <=? n0 then vn / dn / 10 ^ (n0 - k) else vn * 10 ^ (k - n0) / dn.

(** The [s] of [k] digits that reads back as [x] and is closest to it, if
    there is one: it is the prefix or the number after it. *)
Definition candidate (k : Z) : option Z :=
  let q := n0 - k in
  let s := prefix k in
  match inside s q, inside (s + 1) q with
  | true, false => Some s
  | false, true => Some (s + 1)
  | true, true =>
      match cmp10 (2 * s + 1) q (2 * vn) with
      | Gt => Some s
      | Lt => Some (s + 1)
      | Eq => Some (if Z.even s then s else s + 1)
      end
  | false, false => None
  end.

(** The first [k] of the list with a candidate, as [(s, k, n)]; a
    candidate that is [10^k] is the single digit 1 one position up. *)
Fixpoint search (ks : list Z) : Z * Z * Z :=
  match ks with
  | [] => (prefix 17, 17, n0)
  | k :: rest =>
      match candidate k with
      | Some s => if s =? 10 ^ k then (10 ^ (k - 1), k, n0 + 1) else (s, k, n0)
      | None => search rest
      end
  end.

(** Seventeen digits always suffice. *)
Definition shortest : Z * Z * Z :=
  search [1; 2; 3; 4; 5; 6; 7; 8; 9; 10; 11; 12; 13; 14; 15; 16; 17].

End Shortest.

(** The digits of [s] laid out around the position [n]. *)
Definition format (s k n : Z) : string :=
  let ds := digits s in
  if (-6 <? n) && (n <=? 21) then
    if k <=? n then ds ++ zeros (Z.to_nat (n - k))
    else if 0 <? n then
      substring 0 (Z.to_nat n) ds ++ "."
      ++ substring (Z.to_nat n) (Z.to_nat (k - n)) ds
    else "0." ++ zeros (Z.to_nat (- n)) ++ ds
  else
    let ex := n - 1 in
    let tail := "e" ++ (if ex <? 0 then "-" else "+") ++ digits (Z.abs ex) in
    if k =? 1 then ds ++ tail
    else substring 0 1 ds ++ "." ++ substring 1 (Z.to_nat (k - 1)) ds ++ tail.

(** [Number.prototype.toString()], with no radix, on any number. *)
Definition Number_toString (x : float) : string :=
  match Prim2SF x with
  | S754_nan => "NaN"
  | S754_zero _ => "0"
  | S754_infinity s => if s then "-Infinity" else "Infinity"
  | S754_finite s m e =>
      let '(sd, k, n) := shortest m e in
      (if s then "-" else "") ++ format sd k n
  end.

End JS.

(** ** The part of the Zod validation library the form schema uses

    The library is an external dependency; the definitions follow its
    synchronous parser (version 3).  A parser reports [INVALID] (status
    "aborted") or a value whose status is "valid" or "dirty", and appends
    the issues it raises to the shared issue list. *)
Module Zod.

Inductive IssueCode := invalid_type | too_small | custom.

Record ZodIssue := {
  code : IssueCode;
  path : list string;
  message : string;
}.

Inductive ParseReturn (A : Type) :=
| INVALID
| OK (dirty : bool) (value : A).
Arguments INVALID {A}.
Arguments OK {A} dirty value.

(** What a parser returns: its status and value, and the issues it added. *)
Definition Parsed (A : Type) : Type := ParseReturn A * list ZodIssue.

(** [z.string()] checks, in the order they were chained. *)
Inductive StringCheck :=
| check_trim
| check_min (value : nat) (msg : string).

(** [ZodString._parse] on an input that is a string: every check runs in
    turn; [trim] replaces the data, a failed [min] adds a [too_small]
    issue and makes the status dirty. *)
Fixpoint string_checks (checks : list StringCheck) (p : list string)
    (dirty : bool) (data : string) (issues : list ZodIssue) : Parsed string :=
  match checks with
  | [] => (OK dirty data, issues)
  | check_trim :: rest => string_checks rest p dirty (JS.trim data) issues
  | check_min n msg :: rest =>
      if Nat.ltb (String.length data) n
      then string_checks rest p true data
             (issues ++ [{| code := too_small; path := p; message := msg |}])
      else string_checks rest p dirty data issues
  end.

Definition ZodString (checks : list StringCheck) (p : list string)
    (input : string) : Parsed string :=
  string_checks checks p false input [].

(** [.min(value, message)] on [z.number()]: an inclusive lower bound. *)
Inductive NumberCheck :=
| check_nmin (value : float) (inclusive : bool) (msg : string).

Fixpoint number_checks (checks : list NumberCheck) (p : list string)
    (dirty : bool) (data : float) (issues : list ZodIssue) : Parsed float :=
  match checks with
  | [] => (OK dirty data, issues)
  | check_nmin v inclusive msg :: rest =>
      let tooSmall :=
        if inclusive then PrimFloat.ltb data v else PrimFloat.leb data v in
      if tooSmall
      then number_checks rest p true data
             (issues ++ [{| code := too_small; path := p; message := msg |}])
      else number_checks rest p dirty data issues
  end.

(** [ZodNumber._parse]: [undefined] and [NaN] are not of the parsed type
    "number"; the parser adds an [invalid_type] issue (with the default
    error map's message) and returns [INVALID]. *)
Definition ZodNumber (checks : list NumberCheck) (p : list string)
    (input : option float) : Parsed float :=
  match input with
  | None =>
      (INVALID, [{| code := invalid_type; path := p; message := "Required" |}])
  | Some x =>
      if JS.isNaN x
      then (INVALID, [{| code := invalid_type; path := p;
                         message := "Expected number, received nan" |}])
      else number_checks checks p false x []
  end.

(** [ParseStatus.mergeObjectSync], one key at a time: the object is
    [INVALID] as soon as one value is, dirty when one value is dirty; the
    issues of all keys are kept, in key order. *)
Definition pure {A} (x : A) : Parsed A := (OK false x, []).

Definition ap {A B} (pf : Parsed (A -> B)) (pa : Parsed A) : Parsed B :=
  let '(rf, i1) := pf in
  let '(ra, i2) := pa in
  (match rf, ra with
   | OK d1 f, OK d2 a => OK (d1 || d2) (f a)
   | _, _ => INVALID
   end, (i1 ++ i2)%list).

(** [ZodEffects._parse] for a refinement made by
    [.refine(check, { message, path })]: nothing runs when the inner
    result is [INVALID]; otherwise a false check adds a [custom] issue at
    the given path below the schema's own and makes the status dirty. *)
Definition refine {A} (check : A -> bool) (msg : string) (sub : list string)
    (p : list string) (inner : Parsed A) : Parsed A :=
  match inner with
  | (INVALID, issues) => (INVALID, issues)
  | (OK dirty v, issues) =>
      if check v then (OK dirty v, issues)
      else (OK true v,
            (issues ++ [{| code := custom; path := (p ++ sub)%list;
                           message := msg |}])%list)
  end.

Inductive SafeParseReturn (A : Type) :=
| Success (data : A)
| Failure (issues : list ZodIssue).
Arguments Success {A} data.
Arguments Failure {A} issues.

(** [safeParse]: success only for status "valid". *)
Definition safeParse {A} (r : Parsed A) : SafeParseReturn A :=
  match r with
  | (OK false v, _) => Success v
  | (_, issues) => Failure issues
  end.

End Zod.

(** ** The part of react-hook-form the component uses *)
Module RHF.

Record FieldError := {
  message : string;
  type : Zod.IssueCode;
}.

(** [zodResolver]'s [parseErrorSchema]: issues are keyed by their path
    joined with dots, and the first issue of a path wins. *)
Definition parseErrorSchema (issues : list Zod.ZodIssue)
    : gmap string FieldError :=
  foldl
    (fun errors issue =>
       let _path := String.concat "." (Zod.path issue) in
       match errors !! _path with
       | Some _ => errors
       | None =>
           <[_path := {| message := Zod.message issue;
                         type := Zod.code issue |}]> errors
       end)
    ∅ issues.

(** What the resolver hands back: the parsed data, or the field errors. *)
Definition zodResolver {A} (r : Zod.SafeParseReturn A)
    : A + gmap string FieldError :=
  match r with
  | Zod.Success data => inl data
  | Zod.Failure issues => inr (parseErrorSchema issues)
  end.

End RHF.

(** ** upsert-doctor-form.tsx *)
Module Doctor.

(** Modelled from the spec: the row type [typeof doctorsTable.$inferSelect]
    is declared in the database schema, which is not among the sources.
    The record has the attributes the component reads, typed as §3 of the
    specification gives them: integer cents, integer weekdays, time
    strings, and the identity of the stored row. *)
Record t := {
  id : string;
  name : string;
  specialty : string;
  appointmentPriceInCents : Z;
  availableFromWeekDay : Z;
  availableToWeekDay : Z;
  availableFromTime : string;
  availableToTime : string;
}.

End Doctor.

(** The argument of the remote upsert call. *)
Module Payload.

Record t := {
  name : string;
  specialty : string;
  appointmentPrice : float;
  availableFromTime : string;
  availableToTime : string;
  id : option string;
  availableFromWeekDay : float;
  availableToWeekDay : float;
  appointmentPriceInCents : float;
}.

End Payload.

Module DoctorForm.

(** The seven form fields.  [P] is the type of the price field: a number
    in a validated value ([z.infer<typeof formSchema>]), a number or
    [undefined] in the form state, because the price input reports
    [value.floatValue], which is [undefined] for an empty input. *)
Record FormValues (P : Type) := {
  name : string;
  specialty : string;
  appointmentPrice : P;
  availableFromWeekDay : string;
  availableToWeekDay : string;
  availableFromTime : string;
  availableToTime : string;
}.
Arguments Build_FormValues {P}.
Arguments name {P}.
Arguments specialty {P}.
Arguments appointmentPrice {P}.
Arguments availableFromWeekDay {P}.
Arguments availableToWeekDay {P}.
Arguments availableFromTime {P}.
Arguments availableToTime {P}.

Definition FormInput : Type := FormValues (option float).
Definition FormOutput : Type := FormValues float.

Local Notation "pf <*> pa" := (Zod.ap pf pa) (at level 61, left associativity).

(** The [z.object({ ... })] of [formSchema], keys in declaration order. *)
Definition formSchema_object (p : list string) (input : FormInput)
    : Zod.Parsed FormOutput :=
  Zod.pure (@Build_FormValues float)
  <*> Zod.ZodString
        [Zod.check_trim; Zod.check_min 1 "Doctor name is required"]
        (p ++ ["name"]) (name input)
  <*> Zod.ZodString
        [Zod.check_trim; Zod.check_min 1 "Specialty is required"]
        (p ++ ["specialty"]) (specialty input)
  <*> Zod.ZodNumber
        [Zod.check_nmin 1%float true "Appointment price is required"]
        (p ++ ["appointmentPrice"]) (appointmentPrice input)
  <*> Zod.ZodString [] (p ++ ["availableFromWeekDay"])
        (availableFromWeekDay input)
  <*> Zod.ZodString [] (p ++ ["availableToWeekDay"])
        (availableToWeekDay input)
  <*> Zod.ZodString [Zod.check_min 1 "Start time is required"]
        (p ++ ["availableFromTime"]) (availableFromTime input)
  <*> Zod.ZodString [Zod.check_min 1 "End time is required"]
        (p ++ ["availableToTime"]) (availableToTime input).

(** [formSchema]: the object schema with its [.refine]. *)
Definition formSchema (input : FormInput) : Zod.Parsed FormOutput :=
  Zod.refine
    (fun data => JS.str_lt (availableFromTime data) (availableToTime data))
    "Start time must be before end time" ["availableToTime"]
    [] (formSchema_object [] input).

(** [defaultValues] of [useForm]. *)
Definition defaultValues (doctor : option Doctor.t) : FormInput :=
  {| name := match doctor with Some d => Doctor.name d | None => "" end;
     specialty :=
       match doctor with Some d => Doctor.specialty d | None => "" end;
     appointmentPrice :=
       Some
         match doctor with
         | Some d =>
             if JS.truthy (JS.Number_of_Z (Doctor.appointmentPriceInCents d))
             then (JS.Number_of_Z (Doctor.appointmentPriceInCents d) / 100)%float
             else 0%float
         | None => 0%float
         end;
     availableFromWeekDay :=
       match doctor with
       | Some d => JS.toString (Doctor.availableFromWeekDay d)
       | None => "1"
       end;
     availableToWeekDay :=
       match doctor with
       | Some d => JS.toString (Doctor.availableToWeekDay d)
       | None => "5"
       end;
     availableFromTime :=
       match doctor with Some d => Doctor.availableFromTime d | None => "" end;
     availableToTime :=
       match doctor with Some d => Doctor.availableToTime d | None => "" end;
  |}.

(** The object passed to [form.reset] in the effect. *)
Definition resetValues (doctor : option Doctor.t) : FormInput :=
  {| name := match doctor with Some d => Doctor.name d | None => "" end;
     specialty :=
       match doctor with Some d => Doctor.specialty d | None => "" end;
     appointmentPrice :=
       Some
         match doctor with
         | Some d =>
             if JS.truthy (JS.Number_of_Z (Doctor.appointmentPriceInCents d))
             then (JS.Number_of_Z (Doctor.appointmentPriceInCents d) / 100)%float
             else 0%float
         | None => 0%float
         end;
     availableFromWeekDay :=
       match doctor with
       | Some d => JS.toString (Doctor.availableFromWeekDay d)
       | None => "1"
       end;
     availableToWeekDay :=
       match doctor with
       | Some d => JS.toString (Doctor.availableToWeekDay d)
       | None => "5"
       end;
     availableFromTime :=
       match doctor with Some d => Doctor.availableFromTime d | None => "" end;
     availableToTime :=
       match doctor with Some d => Doctor.availableToTime d | None => "" end;
  |}.

(** *** Remote calls

    The two server actions are reached through [execute]; the embedding
    records each call, in order, with its argument. *)
Inductive RemoteCall :=
| upsertDoctor (input : Payload.t)
| deleteDoctor (id : string).

Definition Eff (A : Type) : Type := list RemoteCall -> A * list RemoteCall.

Definition ret {A} (x : A) : Eff A := fun log => (x, log).

Definition bind {A B} (m : Eff A) (k : A -> Eff B) : Eff B :=
  fun log => let '(x, log') := m log in k x log'.

Definition execute (call : RemoteCall) : Eff unit :=
  fun log => (tt, (log ++ [call])%list).

Local Notation "m ;; k" := (bind m (fun _ => k))
  (at level 100, right associativity).

(** [handleDeleteDoctorClick]. *)
Definition handleDeleteDoctorClick (doctor : option Doctor.t) : Eff unit :=
  match doctor with
  | None => ret tt
  | Some d => execute (deleteDoctor (Doctor.id d))
  end.

(** [handleSubmit]. *)
Definition handleSubmit (doctor : option Doctor.t) (values : FormOutput)
    : Eff unit :=
  execute
    (upsertDoctor
       {| Payload.name := name values;
          Payload.specialty := specialty values;
          Payload.appointmentPrice := appointmentPrice values;
          Payload.availableFromTime := availableFromTime values;
          Payload.availableToTime := availableToTime values;
          Payload.id :=
            match doctor with Some d => Some (Doctor.id d) | None => None end;
          Payload.availableFromWeekDay :=
            JS.parseInt (availableFromWeekDay values);
          Payload.availableToWeekDay :=
            JS.parseInt (availableToWeekDay values);
          Payload.appointmentPriceInCents :=
            (appointmentPrice values * 100)%float;
       |}).

(** *** The component instance

    A prop that holds an object is a reference: the dependency list of an
    effect compares references ([Object.is]), not contents. *)
Definition Obj (A : Type) : Type := nat * A.

Record Props := {
  isOpen : bool;
  doctor : option (Obj Doctor.t);
}.

Definition row (p : Props) : option Doctor.t := snd <$> doctor p.

(** [Object.is] on the two dependencies that can change between renders;
    the [form] object is the same on every render. *)
Definition same_deps (p q : Props) : bool :=
  Bool.eqb (isOpen p) (isOpen q)
  && match doctor p, doctor q with
     | None, None => true
     | Some (r1, _), Some (r2, _) => Nat.eqb r1 r2
     | _, _ => false
     end.

Record State := {
  props : Props;
  values : FormInput;
  errors : gmap string RHF.FieldError;
}.

(** The body of the effect: [if (isOpen) form.reset({ ... })].

    With the dialog closed the effect does nothing, and the state below
    carries the last values and errors along.  That over-approximates the
    program in its host: the form is created with [shouldUnregister: true]
    and every field is rendered inside the dialog content, so the closed
    form holds no field value at all.  What a closed form holds matters
    below only through what the next opening does, and the opening
    replaces it; the statements about renders that keep the values are
    about the open dialog. *)
Definition reset_effect (p : Props) (s : State) : State :=
  if isOpen p
  then {| props := p; values := resetValues (row p); errors := ∅ |}
  else {| props := p; values := values s; errors := errors s |}.

(** First render: [useForm] takes [defaultValues], then the effect runs. *)
Definition mount (p : Props) : State :=
  reset_effect p
    {| props := p; values := defaultValues (row p); errors := ∅ |}.

(** A later render: the effect runs when a dependency changed. *)
Definition render (p : Props) (s : State) : State :=
  if same_deps (props s) p
  then {| props := p; values := values s; errors := errors s |}
  else reset_effect p s.

(** [form.handleSubmit(onValid)]: the resolver runs first; [onValid] is
    called with the parsed data only when there is no error, otherwise
    the errors are stored in the form state. *)
Definition form_handleSubmit (onValid : FormOutput -> Eff unit) (s : State)
    : Eff State :=
  match RHF.zodResolver (Zod.safeParse (formSchema (values s))) with
  | inl data =>
      onValid data ;;
      ret {| props := props s; values := values s; errors := ∅ |}
  | inr errs =>
      ret {| props := props s; values := values s; errors := errs |}
  end.

Inductive Event :=
| Render (p : Props)
| Change (v : FormInput)
| Submit
| ConfirmDelete.

(** One event handled by a mounted component.  A [Change] leaves the
    errors as they are: the form validates on submission, so before the
    first submission there are none; the re-validation of a changed field
    that follows a failed submission is not modelled, and the statements
    below read the errors right after a submission or a reset. *)
Definition step (e : Event) (s : State) : Eff State :=
  match e with
  | Render p => ret (render p s)
  | Change v =>
      ret {| props := props s; values := v; errors := errors s |}
  | Submit => form_handleSubmit (handleSubmit (row (props s))) s
  | ConfirmDelete => handleDeleteDoctorClick (row (props s)) ;; ret s
  end.

Fixpoint run (es : list Event) (s : State) : Eff State :=
  match es with
  | [] => ret s
  | e :: es' => bind (step e s) (run es')
  end.

End DoctorForm.

(** ** stats-card.tsx *)
Module StatsCard.

Inductive Icon := DollarSignIcon | CalendarIcon | UserIcon | UsersIcon.

Record Stat := {
  title : string;
  value : string;
  icon : Icon;
}.

(** [StatsCardProps]: each of the four is [number | null]. *)
Record StatsCardProps := {
  totalRevenue : option float;
  totalAppointments : option float;
  totalDoctors : option float;
  totalPatients : option float;
}.

Section Stats.

(** The currency helper of [@/helpers/currency], which is not among the
    sources: any function from a number to a string. *)
Variable formatCurrencyInCents : float -> string.

(** The [stats] array built by [StatsCard]. *)
Definition stats (p : StatsCardProps) : list Stat :=
  [ {| title := "Revenue";
       value :=
         match totalRevenue p with
         | Some x =>
             if JS.truthy x then formatCurrencyInCents x else "R$ 0,00"
         | None => "R$ 0,00"
         end;
       icon := DollarSignIcon |};
    {| title := "Appointments";
       value :=
         match totalAppointments p with
         | Some n => JS.Number_toString n
         | None => "0"
         end;
       icon := CalendarIcon |};
    {| title := "Patients";
       value :=
         match totalPatients p with
         | Some n => JS.Number_toString n
         | None => "0"
         end;
       icon := UserIcon |};
    {| title := "Doctors";
       value :=
         match totalDoctors p with
         | Some n => JS.Number_toString n
         | None => "0"
         end;
       icon := UsersIcon |} ].

(** The value shown on the card with the given title. *)
Definition shown (t : string) (p : StatsCardProps) : option string :=
  value <$> List.find (fun s => String.eqb (title s) t) (stats p).

End Stats.

End StatsCard.

(** ** upsert-doctor-form.tsx: what the component renders *)
Module DoctorFormView.

Import DoctorForm.

(** A [<SelectItem value="...">text</SelectItem>]. *)
Record SelectItem := {
  value : string;
  children : string;
}.

Definition item (v text : string) : SelectItem :=
  {| value := v; children := text |}.

(** A [<SelectGroup>] with its [<SelectLabel>]. *)
Record SelectGroup := {
  label : string;
  items : list SelectItem;
}.

(** The items of the select bound to [availableFromWeekDay]. *)
Definition fromWeekDayItems : list SelectItem :=
  [ item "0" "Sunday"; item "1" "Monday"; item "2" "Tuesday";
    item "3" "Wednesday"; item "4" "Thursday"; item "5" "Friday";
    item "6" "Saturday" ].

(** The items of the select bound to [availableToWeekDay]. *)
Definition toWeekDayItems : list SelectItem :=
  [ item "0" "Sunday"; item "1" "Monday"; item "2" "Tuesday";
    item "3" "Wednesday"; item "4" "Thursday"; item "5" "Friday";
    item "6" "Saturday" ].

(** The groups of the select bound to [availableFromTime]. *)
Definition fromTimeGroups : list SelectGroup :=
  [
    {| label := "Morning";
       items :=
         [ item "05:00:00" "05:00"; item "05:30:00" "05:30";
           item "06:00:00" "06:00"; item "06:30:00" "06:30";
           item "07:00:00" "07:00"; item "07:30:00" "07:30";
           item "08:00:00" "08:00"; item "08:30:00" "08:30";
           item "09:00:00" "09:00"; item "09:30:00" "09:30";
           item "10:00:00" "10:00"; item "10:30:00" "10:30";
           item "11:00:00" "11:00"; item "11:30:00" "11:30";
           item "12:00:00" "12:00"; item "12:30:00" "12:30" ] |};
    {| label := "Afternoon";
       items :=
         [ item "13:00:00" "13:00"; item "13:30:00" "13:30";
           item "14:00:00" "14:00"; item "14:30:00" "14:30";
           item "15:00:00" "15:00"; item "15:30:00" "15:30";
           item "16:00:00" "16:00"; item "16:30:00" "16:30";
           item "17:00:00" "17:00"; item "17:30:00" "17:30";
           item "18:00:00" "18:00"; item "18:30:00" "18:30" ] |};
    {| label := "Night";
       items :=
         [ item "19:00:00" "19:00"; item "19:30:00" "19:30";
           item "20:00:00" "20:00"; item "20:30:00" "20:30";
           item "21:00:00" "21:00"; item "21:30:00" "21:30";
           item "22:00:00" "22:00"; item "22:30:00" "22:30";
           item "23:00:00" "23:00"; item "23:30:00" "23:30" ] |} ].

(** The groups of the select bound to [availableToTime]. *)
Definition toTimeGroups : list SelectGroup :=
  [
    {| label := "Morning";
       items :=
         [ item "05:00:00" "05:00"; item "05:30:00" "05:30";
           item "06:00:00" "06:00"; item "06:30:00" "06:30";
           item "07:00:00" "07:00"; item "07:30:00" "07:30";
           item "08:00:00" "08:00"; item "08:30:00" "08:30";
           item "09:00:00" "09:00"; item "09:30:00" "09:30";
           item "10:00:00" "10:00"; item "10:30:00" "10:30";
           item "11:00:00" "11:00"; item "11:30:00" "11:30";
           item "12:00:00" "12:00"; item "12:30:00" "12:30" ] |};
    {| label := "Afternoon";
       items :=
         [ item "13:00:00" "13:00"; item "13:30:00" "13:30";
           item "14:00:00" "14:00"; item "14:30:00" "14:30";
           item "15:00:00" "15:00"; item "15:30:00" "15:30";
           item "16:00:00" "16:00"; item "16:30:00" "16:30";
           item "17:00:00" "17:00"; item "17:30:00" "17:30";
           item "18:00:00" "18:00"; item "18:30:00" "18:30" ] |};
    {| label := "Night";
       items :=
         [ item "19:00:00" "19:00"; item "19:30:00" "19:30";
           item "20:00:00" "20:00"; item "20:30:00" "20:30";
           item "21:00:00" "21:00"; item "21:30:00" "21:30";
           item "22:00:00" "22:00"; item "22:30:00" "22:30";
           item "23:00:00" "23:00"; item "23:30:00" "23:30" ] |} ].

(** The values a grouped select offers, in document order. *)
Definition group_values (groups : list SelectGroup) : list string :=
  List.map value (List.concat (List.map items groups)).

(** [<DialogHeader>]. *)
Definition header (doctor : option Doctor.t) : string :=
  match doctor with
  | Some d => Doctor.name d
  | None => "Add a doctor"
  end.

(** [<DialogDescription>]. *)
Definition description (doctor : option Doctor.t) : string :=
  match doctor with
  | Some _ => "Edit the information of the doctor"
  | None => "Add a new doctor to your clinic."
  end.

(** [{doctor && (<AlertDialog> ... </AlertDialog>)}]: whether the delete
    control is rendered. *)
Definition showDelete (doctor : option Doctor.t) : bool :=
  match doctor with
  | Some _ => true
  | None => false
  end.

(** The [disabled] prop of the submit button. *)
Definition submitDisabled (isPending : bool) : bool := isPending.

(** The text of the submit button. *)
Definition submitLabel (isPending : bool) (doctor : option Doctor.t) : string :=
  if isPending
  then match doctor with
       | Some _ => "Updating doctor..."
       | None => "Adding doctor..."
       end
  else match doctor with
       | Some _ => "Save changes"
       | None => "Add doctor"
       end.

(** [field.onChange] of each control: one field of the form values is
    replaced. *)
Definition set_name (x : string) (v : FormInput) : FormInput :=
  {| name := x; specialty := specialty v;
     appointmentPrice := appointmentPrice v;
     availableFromWeekDay := availableFromWeekDay v;
     availableToWeekDay := availableToWeekDay v;
     availableFromTime := availableFromTime v;
     availableToTime := availableToTime v |}.

Definition set_specialty (x : string) (v : FormInput) : FormInput :=
  {| name := name v; specialty := x;
     appointmentPrice := appointmentPrice v;
     availableFromWeekDay := availableFromWeekDay v;
     availableToWeekDay := availableToWeekDay v;
     availableFromTime := availableFromTime v;
     availableToTime := availableToTime v |}.

Definition set_appointmentPrice (x : option float) (v : FormInput)
    : FormInput :=
  {| name := name v; specialty := specialty v;
     appointmentPrice := x;
     availableFromWeekDay := availableFromWeekDay v;
     availableToWeekDay := availableToWeekDay v;
     availableFromTime := availableFromTime v;
     availableToTime := availableToTime v |}.

Definition set_availableFromWeekDay (x : string) (v : FormInput) : FormInput :=
  {| name := name v; specialty := specialty v;
     appointmentPrice := appointmentPrice v;
     availableFromWeekDay := x;
     availableToWeekDay := availableToWeekDay v;
     availableFromTime := availableFromTime v;
     availableToTime := availableToTime v |}.

Definition set_availableToWeekDay (x : string) (v : FormInput) : FormInput :=
  {| name := name v; specialty := specialty v;
     appointmentPrice := appointmentPrice v;
     availableFromWeekDay := availableFromWeekDay v;
     availableToWeekDay := x;
     availableFromTime := availableFromTime v;
     availableToTime := availableToTime v |}.

Definition set_availableFromTime (x : string) (v : FormInput) : FormInput :=
  {| name := name v; specialty := specialty v;
     appointmentPrice := appointmentPrice v;
     availableFromWeekDay := availableFromWeekDay v;
     availableToWeekDay := availableToWeekDay v;
     availableFromTime := x;
     availableToTime := availableToTime v |}.

Definition set_availableToTime (x : string) (v : FormInput) : FormInput :=
  {| name := name v; specialty := specialty v;
     appointmentPrice := appointmentPrice v;
     availableFromWeekDay := availableFromWeekDay v;
     availableToWeekDay := availableToWeekDay v;
     availableFromTime := availableFromTime v;
     availableToTime := x |}.

(** What the user, or the parent component, can do to a mounted form.
    A select reports the [value] of one of its items; the name input
    reports any text; the price input reports [value.floatValue]; the
    specialty select takes its items from [medicalSpecialties], which is
    not among the sources, so any text stands for its choice. *)
Inductive UserAction :=
| TypeName (text : string)
| PickSpecialty (v : string)
| EditPrice (floatValue : option float)
| PickFromWeekDay (i : nat)
| PickToWeekDay (i : nat)
| PickFromTime (i : nat)
| PickToTime (i : nat)
| ClickSubmit
| ClickDelete
| ParentRenders (p : Props).

(** A pick of the [i]-th item of a select changes the field to that
    item's value; there is nothing to pick past the last item. *)
Definition pick (options : list string) (i : nat)
    (set : string -> FormInput -> FormInput) (s : State) : option Event :=
  match List.nth_error options i with
  | Some v => Some (Change (set v (values s)))
  | None => None
  end.

(** The event a user action raises on the component, if the control it
    needs is there: [ClickDelete] is the [Delete] action of the alert
    dialog, which is rendered only while [showDelete] holds. *)
Definition event_of (a : UserAction) (s : State) : option Event :=
  match a with
  | TypeName text => Some (Change (set_name text (values s)))
  | PickSpecialty v => Some (Change (set_specialty v (values s)))
  | EditPrice floatValue =>
      Some (Change (set_appointmentPrice floatValue (values s)))
  | PickFromWeekDay i =>
      pick (List.map value fromWeekDayItems) i set_availableFromWeekDay s
  | PickToWeekDay i =>
      pick (List.map value toWeekDayItems) i set_availableToWeekDay s
  | PickFromTime i =>
      pick (group_values fromTimeGroups) i set_availableFromTime s
  | PickToTime i =>
      pick (group_values toTimeGroups) i set_availableToTime s
  | ClickSubmit => Some Submit
  | ClickDelete =>
      if showDelete (row (props s)) then Some ConfirmDelete else None
  | ParentRenders p => Some (Render p)
  end.

Fixpoint interact (actions : list UserAction) (s : State) : Eff State :=
  match actions with
  | [] => ret s
  | a :: rest =>
      match event_of a s with
      | Some e => bind (step e s) (interact rest)
      | None => interact rest s
      end
  end.

End DoctorFormView.

(** ** The appointments page (a server component) *)
Module AppointmentsPage.

(** The session the authentication library returns: [session.user.clinic]
    is absent for a user without a clinic. *)
Record Clinic := { id : string }.
Record User := { clinic : option Clinic }.
Record Session := { user : User }.

Section Page.

(** Modelled from the spec: the tables of the database schema are not
    among the sources.  A row of each of the three tables is of any type
    that has the [clinicId] column the queries filter on; an appointment
    row loaded [with: { patient: true, doctor: true }] is of any type
    computed from the row and the tables. *)
Variables PatientRow DoctorRow AppointmentRow Appointment : Type.
Variable patient_clinicId : PatientRow -> string.
Variable doctor_clinicId : DoctorRow -> string.
Variable appointment_clinicId : AppointmentRow -> string.

Record Database := {
  patientsTable : list PatientRow;
  doctorsTable : list DoctorRow;
  appointmentsTable : list AppointmentRow;
}.

Variable with_patient_and_doctor : Database -> AppointmentRow -> Appointment.

(** [findMany({ where: eq(column, v) })]: the rows whose column equals
    [v]. *)
Definition findMany {Row : Type} (column : Row -> string) (v : string)
    (table : list Row) : list Row :=
  List.filter (fun r => String.eqb (column r) v) table.

(** [session!.user.clinic!.id]: the non-null assertions check nothing at
    run time, so reading through a missing session or clinic throws
    (here [None]). *)
Definition session_clinic_id (session : option Session) : option string :=
  match session with
  | None => None
  | Some s =>
      match clinic (user s) with
      | None => None
      | Some c => Some (id c)
      end
  end.

(** The data the page hands to its two children. *)
Record Rendered := {
  button_patients : list PatientRow;
  button_doctors : list DoctorRow;
  table_data : list Appointment;
}.

(** [AppointmentsPage]: the three queries, then the element tree; [None]
    when evaluating the queries' arguments throws. *)
Definition AppointmentsPage (session : option Session) (db : Database)
    : option Rendered :=
  match session_clinic_id session with
  | None => None
  | Some c =>
      Some
        {| button_patients := findMany patient_clinicId c (patientsTable db);
           button_doctors := findMany doctor_clinicId c (doctorsTable db);
           table_data :=
             List.map (with_patient_and_doctor db)
               (findMany appointment_clinicId c (appointmentsTable db)) |}
  end.

End Page.

Arguments patientsTable {_ _ _} d.
Arguments doctorsTable {_ _ _} d.
Arguments appointmentsTable {_ _ _} d.
Arguments button_patients {_ _ _} r.
Arguments button_doctors {_ _ _} r.
Arguments table_data {_ _ _} r.
Arguments AppointmentsPage {_ _ _ _} _ _ _ _ session db.

End AppointmentsPage.

(** ** Vocabulary of the statements *)

(** The issues a candidate form value is rejected with (none on success). *)
Definition issues_of (v : DoctorForm.FormInput) : list Zod.ZodIssue :=
  match Zod.safeParse (DoctorForm.formSchema v) with
  | Zod.Failure issues => issues
  | Zod.Success _ => []
  end.

(** The issue a failed [.min(1, { message })] raises on a field. *)
Definition required_issue (field msg : string) : Zod.ZodIssue :=
  {| Zod.code := Zod.too_small; Zod.path := [field]; Zod.message := msg |}.

(** The issue of the refinement, attached to the end-time field. *)
Definition ordering_issue : Zod.ZodIssue :=
  {| Zod.code := Zod.custom; Zod.path := ["availableToTime"];
     Zod.message := "Start time must be before end time" |}.

(** A parser result is coherent when it carries an issue exactly when its
    status is not "valid". *)
Definition coherent {A} (r : Zod.Parsed A) : Prop :=
  match r with
  | (Zod.OK false _, issues) => issues = []
  | (_, issues) => issues <> []
  end.

(** A stored record, its form initialised by the reset and submitted
    unchanged: the remote calls issued. *)
Definition edit_unchanged (d : Doctor.t) : list DoctorForm.RemoteCall :=
  snd (DoctorForm.run [DoctorForm.Submit]
         (DoctorForm.mount
            {| DoctorForm.isOpen := true; DoctorForm.doctor := Some (0%nat, d) |})
         []).

(** The field error the resolver makes of an issue, and the key it files
    it under. *)
Definition error_of (i : Zod.ZodIssue) : RHF.FieldError :=
  {| RHF.message := Zod.message i; RHF.type := Zod.code i |}.

Definition key_of (i : Zod.ZodIssue) : string :=
  String.concat "." (Zod.path i).

(** The first issue filed under a key. *)
Definition first_at (k : string) (issues : list Zod.ZodIssue)
    : option Zod.ZodIssue :=
  List.find (fun i => String.eqb (key_of i) k) issues.

(** The integer a number holds, when it holds one: zero for the two
    zeros, [m * 2^e] with its sign for a finite number whose fraction bits
    are all zero, nothing for the other numbers. *)
Definition integer_of (x : float) : option Z :=
  match Prim2SF x with
  | S754_zero _ => Some 0
  | S754_finite s m e =>
      let sign := if s then -1 else 1 in
      if 0 <=? e then Some (sign * (Zpos m * 2 ^ e))
      else if Zpos m mod 2 ^ (- e) =? 0 then Some (sign * (Zpos m / 2 ^ (- e)))
      else None
  | _ => None
  end.

(** ** Concrete records and form values used below *)

(** A create-mode form holding the given values. *)
Definition create_form (v : DoctorForm.FormInput) : DoctorForm.State :=
  {| DoctorForm.props :=
       {| DoctorForm.isOpen := true; DoctorForm.doctor := None |};
     DoctorForm.values := v;
     DoctorForm.errors := ∅ |}.

Definition form_value (n : string) (price : option float) (from to : string)
    : DoctorForm.FormInput :=
  {| DoctorForm.name := n;
     DoctorForm.specialty := "Cardiologia";
     DoctorForm.appointmentPrice := price;
     DoctorForm.availableFromWeekDay := "1";
     DoctorForm.availableToWeekDay := "5";
     DoctorForm.availableFromTime := from;
     DoctorForm.availableToTime := to |}.

(** Start 09:00, end 08:00, price R$150,00. *)
Definition late_start : DoctorForm.FormInput :=
  form_value "Ana Souza" (Some 150%float) "09:00:00" "08:00:00".

(** The same with the price input emptied. *)
Definition late_start_no_price : DoctorForm.FormInput :=
  form_value "Ana Souza" None "09:00:00" "08:00:00".

(** The same with a price that is [NaN]. *)
Definition late_start_nan_price : DoctorForm.FormInput :=
  form_value "Ana Souza" (Some nan) "09:00:00" "08:00:00".

(** A well-ordered value with price R$150,00 and a padded name. *)
Definition office_hours : DoctorForm.FormInput :=
  form_value " Ana Souza " (Some 150%float) "08:00:00" "18:00:00".

(** Price R$0,50: positive, below the schema's minimum. *)
Definition fifty_cents : DoctorForm.FormInput :=
  form_value "Ana Souza" (Some 0.5%float) "08:00:00" "18:00:00".

(** A name that is one space. *)
Definition blank_name : DoctorForm.FormInput :=
  form_value " " (Some 150%float) "08:00:00" "18:00:00".

(** A start time that is one space. *)
Definition blank_start : DoctorForm.FormInput :=
  form_value "Ana Souza" (Some 150%float) " " "18:00:00".

(** Price R$19,99: the number nearest to 19.99, as the price input
    reports it. *)
Definition price_19_99 : DoctorForm.FormInput :=
  form_value "Ana Souza" (Some (JS.Number_of_Z 1999 / 100)%float)
    "08:00:00" "18:00:00".

Definition stored_doctor (cents from to : Z) : Doctor.t :=
  {| Doctor.id := "doctor-1";
     Doctor.name := "Ana Souza";
     Doctor.specialty := "Cardiologia";
     Doctor.appointmentPriceInCents := cents;
     Doctor.availableFromWeekDay := from;
     Doctor.availableToWeekDay := to;
     Doctor.availableFromTime := "08:00:00";
     Doctor.availableToTime := "18:00:00" |}.

(** A second stored record. *)
Definition other_doctor : Doctor.t :=
  {| Doctor.id := "doctor-2";
     Doctor.name := "Bruno Lima";
     Doctor.specialty := "Pediatria";
     Doctor.appointmentPriceInCents := 20000;
     Doctor.availableFromWeekDay := 2;
     Doctor.availableToWeekDay := 4;
     Doctor.availableFromTime := "13:00:00";
     Doctor.availableToTime := "19:30:00" |}.

(** The dialog was opened for the first record, the user edited the form,
    and the dialog was closed. *)
Definition closed_after_edit : DoctorForm.State :=
  fst (DoctorForm.run
         [DoctorForm.Change late_start;
          DoctorForm.Render
            {| DoctorForm.isOpen := false;
               DoctorForm.doctor := Some (1%nat, stored_doctor 15000 1 5) |}]
         (DoctorForm.mount
            {| DoctorForm.isOpen := true;
               DoctorForm.doctor := Some (1%nat, stored_doctor 15000 1 5) |})
         []).

(** The props that open the dialog for the second record. *)
Definition open_other : DoctorForm.Props :=
  {| DoctorForm.isOpen := true;
     DoctorForm.doctor := Some (2%nat, other_doctor) |}.

(** The dialog is open for the first record and the user has edited the
    form. *)
Definition edited_open : DoctorForm.State :=
  fst (DoctorForm.run
         [DoctorForm.Change late_start]
         (DoctorForm.mount
            {| DoctorForm.isOpen := true;
               DoctorForm.doctor := Some (1%nat, stored_doctor 15000 1 5) |})
         []).

(** Props of a later render of the open dialog: with the very record
    object of the render before, and with another object of equal
    contents. *)
Definition same_object : DoctorForm.Props :=
  {| DoctorForm.isOpen := true;
     DoctorForm.doctor := Some (1%nat, stored_doctor 15000 1 5) |}.

Definition copied_object : DoctorForm.Props :=
  {| DoctorForm.isOpen := true;
     DoctorForm.doctor := Some (2%nat, stored_doctor 15000 1 5) |}.

(** ** Vocabulary of the further statements *)

(** A validated value put back into the form. *)
Definition as_input (data : DoctorForm.FormOutput) : DoctorForm.FormInput :=
  {| DoctorForm.name := DoctorForm.name data;
     DoctorForm.specialty := DoctorForm.specialty data;
     DoctorForm.appointmentPrice := Some (DoctorForm.appointmentPrice data);
     DoctorForm.availableFromWeekDay := DoctorForm.availableFromWeekDay data;
     DoctorForm.availableToWeekDay := DoctorForm.availableToWeekDay data;
     DoctorForm.availableFromTime := DoctorForm.availableFromTime data;
     DoctorForm.availableToTime := DoctorForm.availableToTime data |}.

(** What every upsert payload should satisfy: trimmed, non-empty name and
    specialty, a price that is a number not below 1 with its cents the
    product by 100, and a start time before the end time. *)
Definition well_formed_upsert (p : Payload.t) : Prop :=
  JS.trim (Payload.name p) = Payload.name p
  /\ Payload.name p <> ""
  /\ JS.trim (Payload.specialty p) = Payload.specialty p
  /\ Payload.specialty p <> ""
  /\ JS.isNaN (Payload.appointmentPrice p) = false
  /\ PrimFloat.ltb (Payload.appointmentPrice p) 1%float = false
  /\ Payload.appointmentPriceInCents p
     = (Payload.appointmentPrice p * 100)%float
  /\ JS.str_lt (Payload.availableFromTime p) (Payload.availableToTime p) = true.

Definition well_formed_call (c : DoctorForm.RemoteCall) : Prop :=
  match c with
  | DoctorForm.upsertDoctor p => well_formed_upsert p
  | DoctorForm.deleteDoctor _ => True
  end.

(** A call made on behalf of the record [d] (of no record, in create
    mode): an upsert carries its id (no id), a delete its id. *)
Definition call_for (d : option Doctor.t) (c : DoctorForm.RemoteCall) : Prop :=
  match c with
  | DoctorForm.upsertDoctor p => Payload.id p = Doctor.id <$> d
  | DoctorForm.deleteDoctor i => Some i = Doctor.id <$> d
  end.

(** A render that supplies the record [d]. *)
Definition renders_only (d : option Doctor.t) (e : DoctorForm.Event) : Prop :=
  match e with
  | DoctorForm.Render p => DoctorForm.row p = d
  | _ => True
  end.

(** Two decimal digits. *)
Definition pad2 (n : nat) : string :=
  String (ascii_of_nat (48 + n / 10))
    (String (ascii_of_nat (48 + n mod 10)) EmptyString).

(** The time of day [m] minutes after midnight, as ["HH:MM:00"]. *)
Definition time_of_minutes (m : nat) : string :=
  pad2 (m / 60) ++ ":" ++ pad2 (m mod 60) ++ ":00".

(** The [i]-th half-hour slot from 05:00. *)
Definition time_of_slot (i : nat) : string := time_of_minutes (300 + 30 * i).

(** A weekday a stored record may hold. *)
Definition weekday (d : Z) : Prop := 0 <= d <= 6.

(** A user action that re-renders the component supplies a record whose
    weekdays are weekdays. *)
Definition renders_weekdays (a : DoctorFormView.UserAction) : Prop :=
  match a with
  | DoctorFormView.ParentRenders p =>
      match DoctorForm.row p with
      | Some d =>
          weekday (Doctor.availableFromWeekDay d)
          /\ weekday (Doctor.availableToWeekDay d)
      | None => True
      end
  | _ => True
  end.

(** An upsert whose two weekdays are integers from 0 to 6. *)
Definition weekdays_in_range (c : DoctorForm.RemoteCall) : Prop :=
  match c with
  | DoctorForm.upsertDoctor p =>
      (exists d, weekday d /\ Payload.availableFromWeekDay p = JS.Number_of_Z d)
      /\ (exists d, weekday d /\ Payload.availableToWeekDay p = JS.Number_of_Z d)
  | DoctorForm.deleteDoctor _ => True
  end.

(** The form's two weekday strings are values of the weekday selects. *)
Definition weekdays_offered (s : DoctorForm.State) : Prop :=
  DoctorForm.availableFromWeekDay (DoctorForm.values s)
    ∈ List.map DoctorFormView.value DoctorFormView.fromWeekDayItems
  /\ DoctorForm.availableToWeekDay (DoctorForm.values s)
     ∈ List.map DoctorFormView.value DoctorFormView.fromWeekDayItems.

(** A decimal digit other than 0. *)
Definition nonzero_digit (c : ascii) : Prop :=
  In c ["1"; "2"; "3"; "4"; "5"; "6"; "7"; "8"; "9"]%char.

(** An integer a number holds exactly. *)
Definition safe_integer (z : Z) : Prop :=
  - 9007199254740991 <= z <= 9007199254740991.

(** The price the reset puts in the form for a record stored with [x]
    cents. *)
Definition initial_price (x : float) : float :=
  if JS.truthy x then (x / 100)%float else 0%float.

(** A check of the price and of the cents made of it, on a range of
    stored amounts, run on machine integers. *)
Module Drift.

Import Uint63.

(** For the stored cents [c]: the cents [initial_price * 100] are [c]
    itself or one of the two numbers next to it, and [c] itself when [c]
    is a whole number of hundreds; the price is a number, and it is below
    1 exactly when [c] is below 100. *)
Definition drift_ok (c : int) : bool :=
  let x := PrimFloat.of_uint63 c in
  let price := initial_price x in
  let r := (price * 100)%float in
  (PrimFloat.eqb r x || PrimFloat.eqb r (next_up x)
   || PrimFloat.eqb r (next_down x))
  && (negb (PrimInt63.eqb (PrimInt63.mod c 100) 0) || PrimFloat.eqb r x)
  && negb (JS.isNaN price)
  && Bool.eqb (PrimFloat.ltb price 1) (PrimInt63.ltb c 100).

(** [drift_ok] on the [n] integers from [c]. *)
Fixpoint drift_ok_from (c : int) (n : nat) : bool :=
  match n with
  | O => true
  | S m => drift_ok c && drift_ok_from (PrimInt63.add c 1) m
  end.

(** [drift_ok] on [n] consecutive blocks of [size] integers from [c]. *)
Fixpoint drift_ok_blocks (c : int) (size n : nat) : bool :=
  match n with
  | O => true
  | S m =>
      drift_ok_from c size
      && drift_ok_blocks (PrimInt63.add c (of_Z (Z.of_nat size))) size m
  end.

End Drift.

(** * Properties *)

(** ** Numbers *)

Lemma Prim2SF_one : Prim2SF 1%float = S754_finite false 4503599627370496 (-52).
Proof. vm_compute. reflexivity. Qed.

Lemma SFcompare_refl_finite s m e :
  SFcompare (S754_finite s m e) (S754_finite s m e) = Some Eq.
Proof.
  cbn [SFcompare]. destruct s; rewrite Z.compare_refl.
  - now rewrite Pos.compare_cont_refl.
  - now rewrite Pos.compare_cont_refl.
Qed.

(** [1 <= x] excludes [NaN] and makes [x < 1] false. *)
Lemma leb_one_number (x : float) :
  PrimFloat.leb 1%float x = true ->
  JS.isNaN x = false /\ PrimFloat.ltb x 1%float = false.
Proof.
  unfold JS.isNaN, PrimFloat.is_nan.
  rewrite leb_spec, ltb_spec, FloatAxioms.eqb_spec, Prim2SF_one.
  unfold SFleb, SFltb, SFeqb.
  destruct (Prim2SF x) as [s | s | | s m e].
  - cbn [SFcompare]. discriminate.
  - destruct s; cbn [SFcompare negb]; [discriminate | auto].
  - cbn [SFcompare]. discriminate.
  - rewrite SFcompare_refl_finite. cbn [SFcompare negb].
    destruct s; [discriminate |].
    rewrite (Z.compare_antisym e (-52)).
    destruct (e ?= -52)%Z eqn:He; cbn [CompOpp]; try discriminate; auto.
    pose proof (Pos.compare_cont_antisym m 4503599627370496 Eq) as Ha.
    change (CompOpp Eq) with Eq in Ha.
    change PosDef.Pos.compare_cont with Pos.compare_cont.
    rewrite <- Ha.
    destruct (Pos.compare_cont Eq m 4503599627370496); cbn [CompOpp];
      try discriminate; auto.
Qed.

(** ** Strings *)

Lemma length_lt_1 (s : string) :
  Nat.ltb (String.length s) 1 = true <-> s = "".
Proof.
  destruct s as [| c s]; cbn; split; intros H; try reflexivity; discriminate.
Qed.

Lemma length_ge_1 (s : string) :
  Nat.ltb (String.length s) 1 = false <-> s <> "".
Proof.
  destruct s as [| c s]; cbn; split; intros H; try discriminate; congruence.
Qed.

(** ** The parsers *)

Section Parsers.

Context (p : list string).

Lemma ZodString_plain s : Zod.ZodString [] p s = (Zod.OK false s, []).
Proof. reflexivity. Qed.

Lemma ZodString_min msg s :
  Zod.ZodString [Zod.check_min 1 msg] p s =
    if Nat.ltb (String.length s) 1
    then (Zod.OK true s,
          [{| Zod.code := Zod.too_small; Zod.path := p; Zod.message := msg |}])
    else (Zod.OK false s, []).
Proof.
  unfold Zod.ZodString. cbn [Zod.string_checks].
  destruct (Nat.ltb (String.length s) 1); reflexivity.
Qed.

Lemma ZodString_trim_min msg s :
  Zod.ZodString [Zod.check_trim; Zod.check_min 1 msg] p s =
    if Nat.ltb (String.length (JS.trim s)) 1
    then (Zod.OK true (JS.trim s),
          [{| Zod.code := Zod.too_small; Zod.path := p; Zod.message := msg |}])
    else (Zod.OK false (JS.trim s), []).
Proof.
  unfold Zod.ZodString. cbn [Zod.string_checks].
  destruct (Nat.ltb (String.length (JS.trim s)) 1); reflexivity.
Qed.

Lemma ZodNumber_min msg x :
  JS.isNaN x = false ->
  Zod.ZodNumber [Zod.check_nmin 1%float true msg] p (Some x) =
    if PrimFloat.ltb x 1%float
    then (Zod.OK true x,
          [{| Zod.code := Zod.too_small; Zod.path := p; Zod.message := msg |}])
    else (Zod.OK false x, []).
Proof.
  intros Hn. unfold Zod.ZodNumber. rewrite Hn. cbn [Zod.number_checks].
  destruct (PrimFloat.ltb x 1%float); reflexivity.
Qed.

(** Every issue a field parser raises carries the field's path. *)
Lemma string_checks_path checks :
  forall dirty data issues r out,
    Zod.string_checks checks p dirty data issues = (r, out) ->
    Forall (fun i => Zod.path i = p) issues ->
    Forall (fun i => Zod.path i = p) out.
Proof.
  induction checks as [| c rest IH]; intros dirty data issues r out Hrun Hin.
  - cbn in Hrun. now inversion Hrun; subst.
  - destruct c as [| n msg]; cbn [Zod.string_checks] in Hrun.
    + eapply IH; eauto.
    + destruct (Nat.ltb (String.length data) n); eapply IH; eauto.
      apply Forall_app. split; [assumption |]. now constructor.
Qed.

Lemma ZodString_path checks s :
  Forall (fun i => Zod.path i = p) (snd (Zod.ZodString checks p s)).
Proof.
  destruct (Zod.ZodString checks p s) as [r out] eqn:E.
  eapply string_checks_path; [exact E | constructor].
Qed.

Lemma number_checks_path checks :
  forall dirty data issues r out,
    Zod.number_checks checks p dirty data issues = (r, out) ->
    Forall (fun i => Zod.path i = p) issues ->
    Forall (fun i => Zod.path i = p) out.
Proof.
  induction checks as [| c rest IH]; intros dirty data issues r out Hrun Hin.
  - cbn in Hrun. now inversion Hrun; subst.
  - destruct c as [v inclusive msg]; cbn [Zod.number_checks] in Hrun.
    cbv zeta in Hrun.
    destruct (if inclusive then PrimFloat.ltb data v else PrimFloat.leb data v);
      eapply IH; eauto.
    apply Forall_app. split; [assumption |]. now constructor.
Qed.

Lemma ZodNumber_path checks x :
  Forall (fun i => Zod.path i = p) (snd (Zod.ZodNumber checks p x)).
Proof.
  unfold Zod.ZodNumber. destruct x as [x |].
  - destruct (JS.isNaN x).
    + cbn. now repeat constructor.
    + destruct (Zod.number_checks checks p false x []) as [r out] eqn:E.
      eapply number_checks_path; [exact E | constructor].
  - cbn. now repeat constructor.
Qed.

(** Field parsers are coherent: they raise an issue exactly when their
    status is not "valid". *)
Lemma string_checks_coherent checks :
  forall (dirty : bool) data (issues : list Zod.ZodIssue),
    (if dirty then issues <> [] else issues = []) ->
    coherent (Zod.string_checks checks p dirty data issues).
Proof.
  induction checks as [| c rest IH]; intros dirty data issues Hinv.
  - cbn. destruct dirty; assumption.
  - destruct c as [| n msg]; cbn [Zod.string_checks].
    + now apply IH.
    + destruct (Nat.ltb (String.length data) n); apply IH; [| assumption].
      intros Habs. now apply app_eq_nil in Habs as [_ ?].
Qed.

Lemma ZodString_coherent checks s : coherent (Zod.ZodString checks p s).
Proof. now apply string_checks_coherent. Qed.

Lemma number_checks_coherent checks :
  forall (dirty : bool) data (issues : list Zod.ZodIssue),
    (if dirty then issues <> [] else issues = []) ->
    coherent (Zod.number_checks checks p dirty data issues).
Proof.
  induction checks as [| c rest IH]; intros dirty data issues Hinv.
  - cbn. destruct dirty; assumption.
  - destruct c as [v inclusive msg]; cbn [Zod.number_checks]. cbv zeta.
    destruct (if inclusive then PrimFloat.ltb data v else PrimFloat.leb data v);
      apply IH; [| assumption].
    intros Habs. now apply app_eq_nil in Habs as [_ ?].
Qed.

Lemma ZodNumber_coherent checks x : coherent (Zod.ZodNumber checks p x).
Proof.
  unfold Zod.ZodNumber. destruct x as [x |]; [destruct (JS.isNaN x) |].
  - cbn. discriminate.
  - now apply number_checks_coherent.
  - cbn. discriminate.
Qed.

End Parsers.

Lemma pure_coherent {A} (x : A) : coherent (Zod.pure x).
Proof. reflexivity. Qed.

Lemma ap_coherent {A B} (pf : Zod.Parsed (A -> B)) (pa : Zod.Parsed A) :
  coherent pf -> coherent pa -> coherent (Zod.ap pf pa).
Proof.
  destruct pf as [[| d1 f] i1], pa as [[| d2 a] i2]; cbn;
    try (destruct d1); try (destruct d2); cbn; intros H1 H2; subst;
    try reflexivity; intros Habs; apply app_eq_nil in Habs as [? ?];
    congruence.
Qed.

Lemma refine_coherent {A} (check : A -> bool) msg sub p (r : Zod.Parsed A) :
  coherent r -> coherent (Zod.refine check msg sub p r).
Proof.
  destruct r as [[| d v] issues]; cbn; [trivial |].
  intros H. destruct (check v); [exact H |].
  intros Habs. now apply app_eq_nil in Habs as [_ ?].
Qed.

Lemma snd_ap {A B} (pf : Zod.Parsed (A -> B)) (pa : Zod.Parsed A) :
  snd (Zod.ap pf pa) = (snd pf ++ snd pa)%list.
Proof. now destruct pf, pa. Qed.

(** ** The form schema *)

Import DoctorForm.

Lemma formSchema_object_coherent p v : coherent (formSchema_object p v).
Proof.
  unfold formSchema_object.
  repeat apply ap_coherent;
    auto using pure_coherent, ZodString_coherent, ZodNumber_coherent.
Qed.

Lemma formSchema_coherent v : coherent (formSchema v).
Proof. apply refine_coherent, formSchema_object_coherent. Qed.

(** The issues a rejected value is reported with are the issues the
    parsers raised; an accepted value raised none. *)
Lemma issues_of_snd v : issues_of v = snd (formSchema v).
Proof.
  unfold issues_of, Zod.safeParse.
  pose proof (formSchema_coherent v) as H.
  destruct (formSchema v) as [[| [|] x] issues]; cbn in *; congruence.
Qed.

Lemma failure_has_issue v issues :
  Zod.safeParse (formSchema v) = Zod.Failure issues -> issues <> [].
Proof.
  unfold Zod.safeParse. pose proof (formSchema_coherent v) as H.
  destruct (formSchema v) as [[| [|] x] l]; cbn in *; congruence.
Qed.

(** The object's issues, field by field in declaration order. *)
Lemma formSchema_object_issues v :
  snd (formSchema_object [] v) =
    (snd (Zod.ZodString
            [Zod.check_trim; Zod.check_min 1 "Doctor name is required"]
            ["name"] (name v))
     ++ snd (Zod.ZodString
               [Zod.check_trim; Zod.check_min 1 "Specialty is required"]
               ["specialty"] (specialty v))
     ++ snd (Zod.ZodNumber
               [Zod.check_nmin 1%float true "Appointment price is required"]
               ["appointmentPrice"] (appointmentPrice v))
     ++ snd (Zod.ZodString [Zod.check_min 1 "Start time is required"]
               ["availableFromTime"] (availableFromTime v))
     ++ snd (Zod.ZodString [Zod.check_min 1 "End time is required"]
               ["availableToTime"] (availableToTime v)))%list.
Proof.
  unfold formSchema_object. rewrite !snd_ap.
  rewrite !ZodString_plain. cbn [snd Zod.pure app].
  now rewrite !app_nil_r, <- !app_assoc.
Qed.

(** The refinement adds at most its own issue, after the object's. *)
Lemma formSchema_issues v :
  exists tail,
    snd (formSchema v) = (snd (formSchema_object [] v) ++ tail)%list
    /\ (tail = [] \/ tail = [ordering_issue]).
Proof.
  unfold formSchema, Zod.refine.
  destruct (formSchema_object [] v) as [[| d x] issues]; cbn [snd].
  - exists []. split; [now rewrite app_nil_r | now left].
  - destruct (JS.str_lt (availableFromTime x) (availableToTime x)); cbn [snd].
    + exists []. split; [now rewrite app_nil_r | now left].
    + exists [ordering_issue]. split; [reflexivity | now right].
Qed.

Lemma other_path_not_in (p : list string) (x : Zod.ZodIssue) l :
  Forall (fun i => Zod.path i = p) l -> Zod.path x <> p -> x ∉ l.
Proof.
  intros Hall Hne Hin. rewrite Forall_forall in Hall.
  exact (Hne (Hall x Hin)).
Qed.

(** No issue of the schema is a top-level one: each has a field's path. *)
Lemma formSchema_paths v :
  Forall (fun i => Zod.path i <> []) (snd (formSchema v)).
Proof.
  destruct (formSchema_issues v) as (tail & -> & Htail).
  rewrite formSchema_object_issues.
  repeat (apply Forall_app; split);
    try (eapply Forall_impl;
         [first [apply ZodString_path | apply ZodNumber_path]
         | cbn; intros i ->; discriminate]).
  destruct Htail as [-> | ->];
    [constructor | constructor; [cbn; discriminate | constructor]].
Qed.

(** ** The resolver *)

Lemma parseErrorSchema_fold issues :
  forall (m : gmap string RHF.FieldError) k,
    foldl
      (fun errors issue =>
         let _path := String.concat "." (Zod.path issue) in
         match errors !! _path with
         | Some _ => errors
         | None =>
             <[_path := {| RHF.message := Zod.message issue;
                           RHF.type := Zod.code issue |}]> errors
         end) m issues !! k =
    match m !! k with
    | Some e => Some e
    | None => error_of <$> first_at k issues
    end.
Proof.
  induction issues as [| i rest IH]; intros m k; cbn [foldl first_at List.find].
  - now destruct (m !! k).
  - rewrite IH. cbv zeta. fold (key_of i).
    destruct (String.eqb_spec (key_of i) k) as [-> | Hne].
    + destruct (m !! k) eqn:E; [now rewrite E |].
      now rewrite lookup_insert_eq.
    + destruct (m !! key_of i) eqn:E; [reflexivity |].
      now rewrite lookup_insert_ne.
Qed.

(** The first issue of a path is the one the form shows for it. *)
Lemma parseErrorSchema_lookup issues k :
  RHF.parseErrorSchema issues !! k = error_of <$> first_at k issues.
Proof.
  unfold RHF.parseErrorSchema. now rewrite parseErrorSchema_fold, lookup_empty.
Qed.

Lemma parseErrorSchema_nonempty issues :
  issues <> [] -> RHF.parseErrorSchema issues <> ∅.
Proof.
  destruct issues as [| i rest]; [congruence |]. intros _ Habs.
  pose proof (parseErrorSchema_lookup (i :: rest) (key_of i)) as H.
  rewrite Habs, lookup_empty in H.
  unfold first_at in H. cbn [List.find] in H.
  now rewrite String.eqb_refl in H.
Qed.

(** The object parser on a value whose price is a number: it never
    aborts, the strings of [name] and [specialty] come out trimmed, and
    the status is dirty exactly when one of the five checks failed. *)
Lemma formSchema_object_number v x :
  appointmentPrice v = Some x ->
  JS.isNaN x = false ->
  fst (formSchema_object [] v) =
    Zod.OK
      (Nat.ltb (String.length (JS.trim (name v))) 1
       || Nat.ltb (String.length (JS.trim (specialty v))) 1
       || PrimFloat.ltb x 1%float
       || Nat.ltb (String.length (availableFromTime v)) 1
       || Nat.ltb (String.length (availableToTime v)) 1)
      {| name := JS.trim (name v);
         specialty := JS.trim (specialty v);
         appointmentPrice := x;
         availableFromWeekDay := availableFromWeekDay v;
         availableToWeekDay := availableToWeekDay v;
         availableFromTime := availableFromTime v;
         availableToTime := availableToTime v |}.
Proof.
  intros Hx Hn. unfold formSchema_object.
  rewrite Hx, !ZodString_trim_min, !ZodString_min, !ZodString_plain,
    (ZodNumber_min _ _ _ Hn).
  destruct (Nat.ltb (String.length (JS.trim (name v))) 1),
    (Nat.ltb (String.length (JS.trim (specialty v))) 1),
    (PrimFloat.ltb x 1%float),
    (Nat.ltb (String.length (availableFromTime v)) 1),
    (Nat.ltb (String.length (availableToTime v)) 1); reflexivity.
Qed.

(** C1 (amended): for every candidate form value whose price field holds
    a number (neither [undefined] nor [NaN]) and whose
    [availableFromTime >= availableToTime], schema validation fails and
    its issues include the one with message "Start time must be before
    end time" at path [availableToTime]; no issue is a top-level one, and
    unless the end time is empty (whose required-field error comes first)
    that message is the error the form holds for [availableToTime]. *)
Theorem ordering_error_on_end_time (v : FormInput) (x : float) :
  appointmentPrice v = Some x ->
  JS.isNaN x = false ->
  JS.str_ge (availableFromTime v) (availableToTime v) = true ->
  exists issues,
    Zod.safeParse (formSchema v) = Zod.Failure issues
    /\ ordering_issue ∈ issues
    /\ Forall (fun i => Zod.path i <> []) issues
    /\ (availableToTime v <> "" ->
        RHF.parseErrorSchema issues !! "availableToTime"
        = Some (error_of ordering_issue)).
Proof.
  intros Hx Hn Hge.
  apply negb_true_iff in Hge.
  pose proof (formSchema_object_number v x Hx Hn) as Hfst.
  pose proof (formSchema_paths v) as Hpaths.
  pose proof (formSchema_object_issues v) as Hsnd.
  unfold formSchema in *.
  destruct (formSchema_object [] v) as [r issues]. cbn [fst snd] in Hfst, Hsnd.
  subst r. cbn [Zod.refine availableFromTime availableToTime] in *.
  rewrite Hge in *. cbn [snd] in Hpaths.
  eexists. split; [reflexivity |]. split; [| split; [exact Hpaths |]].
  - apply elem_of_app. right. apply list_elem_of_singleton. reflexivity.
  - intros Hto. apply length_ge_1 in Hto.
    rewrite parseErrorSchema_lookup, Hsnd, Hx.
    rewrite !ZodString_trim_min, !ZodString_min, (ZodNumber_min _ _ _ Hn), Hto.
    destruct (Nat.ltb (String.length (JS.trim (name v))) 1),
      (Nat.ltb (String.length (JS.trim (specialty v))) 1),
      (PrimFloat.ltb x 1%float),
      (Nat.ltb (String.length (availableFromTime v)) 1); reflexivity.
Qed.

Lemma ordering_error_on_end_time_witness :
  exists issues,
    Zod.safeParse (formSchema late_start) = Zod.Failure issues
    /\ ordering_issue ∈ issues
    /\ Forall (fun i => Zod.path i <> []) issues
    /\ (availableToTime late_start <> "" ->
        RHF.parseErrorSchema issues !! "availableToTime"
        = Some (error_of ordering_issue)).
Proof.
  apply (ordering_error_on_end_time late_start 150%float); reflexivity.
Defined.

(** C1 as stated fails when the price input has been emptied: the start
    time is not before the end time, validation fails, but the only issue
    is the price's type error; the refinement did not run.  The same
    happens for a price that is [NaN]. *)
Lemma ordering_error_missing_without_price :
  (JS.str_ge (availableFromTime late_start_no_price)
     (availableToTime late_start_no_price) = true
   /\ Zod.safeParse (formSchema late_start_no_price)
      = Zod.Failure
          [{| Zod.code := Zod.invalid_type; Zod.path := ["appointmentPrice"];
              Zod.message := "Required" |}]
   /\ ordering_issue ∉ issues_of late_start_no_price)
  /\
  (JS.str_ge (availableFromTime late_start_nan_price)
     (availableToTime late_start_nan_price) = true
   /\ Zod.safeParse (formSchema late_start_nan_price)
      = Zod.Failure
          [{| Zod.code := Zod.invalid_type; Zod.path := ["appointmentPrice"];
              Zod.message := "Expected number, received nan" |}]
   /\ ordering_issue ∉ issues_of late_start_nan_price).
Proof.
  split; (split; [reflexivity |]); (split; [reflexivity |]);
    intros Hin; apply list_elem_of_singleton in Hin; discriminate.
Qed.

(** C2: a submission whose values fail validation issues no remote call;
    the form keeps its values and holds the field errors made of the
    issues, of which there is at least one. *)
Theorem invalid_submission_makes_no_call
    (s : State) (log : list RemoteCall) (issues : list Zod.ZodIssue) :
  Zod.safeParse (formSchema (values s)) = Zod.Failure issues ->
  snd (step Submit s log) = log
  /\ errors (fst (step Submit s log)) = RHF.parseErrorSchema issues
  /\ errors (fst (step Submit s log)) <> ∅
  /\ values (fst (step Submit s log)) = values s.
Proof.
  intros Hfail. cbn [step]. unfold form_handleSubmit. rewrite Hfail.
  cbn [RHF.zodResolver ret fst snd errors values].
  repeat split.
  apply parseErrorSchema_nonempty. eapply failure_has_issue, Hfail.
Qed.

Lemma invalid_submission_makes_no_call_witness :
  snd (step Submit (create_form late_start) []) = []
  /\ errors (fst (step Submit (create_form late_start) []))
     = RHF.parseErrorSchema [ordering_issue]
  /\ errors (fst (step Submit (create_form late_start) [])) <> ∅
  /\ values (fst (step Submit (create_form late_start) [])) = late_start.
Proof.
  apply (invalid_submission_makes_no_call (create_form late_start) []
           [ordering_issue]).
  reflexivity.
Defined.

(** C4 (amended): a candidate form value is accepted when [name] and
    [specialty] are non-empty after trimming, both times are non-empty,
    the start time is before the end time, and the price is a number that
    is at least 1; the validated value carries the trimmed strings. *)
Theorem valid_input_accepted (v : FormInput) (x : float) :
  appointmentPrice v = Some x ->
  PrimFloat.leb 1%float x = true ->
  JS.trim (name v) <> "" ->
  JS.trim (specialty v) <> "" ->
  availableFromTime v <> "" ->
  availableToTime v <> "" ->
  JS.str_lt (availableFromTime v) (availableToTime v) = true ->
  Zod.safeParse (formSchema v) =
    Zod.Success
      {| name := JS.trim (name v);
         specialty := JS.trim (specialty v);
         appointmentPrice := x;
         availableFromWeekDay := availableFromWeekDay v;
         availableToWeekDay := availableToWeekDay v;
         availableFromTime := availableFromTime v;
         availableToTime := availableToTime v |}
  /\ issues_of v = [].
Proof.
  intros Hx Hge Hname Hspec Hfrom Hto Hlt.
  destruct (leb_one_number x Hge) as [Hn Hsmall].
  pose proof (formSchema_object_number v x Hx Hn) as Hfst.
  apply length_ge_1 in Hname, Hspec, Hfrom, Hto.
  rewrite Hname, Hspec, Hfrom, Hto, Hsmall in Hfst. cbn [orb] in Hfst.
  assert (Zod.safeParse (formSchema v) =
            Zod.Success
              {| name := JS.trim (name v);
                 specialty := JS.trim (specialty v);
                 appointmentPrice := x;
                 availableFromWeekDay := availableFromWeekDay v;
                 availableToWeekDay := availableToWeekDay v;
                 availableFromTime := availableFromTime v;
                 availableToTime := availableToTime v |}) as Hok.
  { unfold formSchema.
    destruct (formSchema_object [] v) as [r issues]. cbn [fst] in Hfst.
    subst r. cbn [Zod.refine availableFromTime availableToTime].
    now rewrite Hlt. }
  split; [exact Hok |]. unfold issues_of. now rewrite Hok.
Qed.

Lemma valid_input_accepted_witness :
  Zod.safeParse (formSchema office_hours) =
    Zod.Success
      {| name := "Ana Souza";
         specialty := "Cardiologia";
         appointmentPrice := 150%float;
         availableFromWeekDay := "1";
         availableToWeekDay := "5";
         availableFromTime := "08:00:00";
         availableToTime := "18:00:00" |}
  /\ issues_of office_hours = [].
Proof.
  apply (valid_input_accepted office_hours 150%float);
    first [reflexivity | discriminate].
Defined.

(** C4 as stated fails at a positive price below 1, and at a name that is
    non-empty but blank: every field is non-empty, the times are ordered,
    the price is greater than 0, and validation fails. *)
Lemma positive_price_or_blank_name_rejected :
  (name fifty_cents <> "" /\ specialty fifty_cents <> ""
   /\ availableFromTime fifty_cents <> "" /\ availableToTime fifty_cents <> ""
   /\ JS.str_lt (availableFromTime fifty_cents) (availableToTime fifty_cents)
      = true
   /\ appointmentPrice fifty_cents = Some 0.5%float
   /\ PrimFloat.ltb 0%float 0.5%float = true
   /\ Zod.safeParse (formSchema fifty_cents)
      = Zod.Failure
          [required_issue "appointmentPrice" "Appointment price is required"])
  /\
  (name blank_name <> "" /\ specialty blank_name <> ""
   /\ availableFromTime blank_name <> "" /\ availableToTime blank_name <> ""
   /\ JS.str_lt (availableFromTime blank_name) (availableToTime blank_name)
      = true
   /\ appointmentPrice blank_name = Some 150%float
   /\ PrimFloat.ltb 0%float 150%float = true
   /\ Zod.safeParse (formSchema blank_name)
      = Zod.Failure [required_issue "name" "Doctor name is required"]).
Proof. repeat split; first [discriminate | reflexivity]. Qed.

(** ** Required fields *)

Lemma required_issue_in_object v f msg :
  required_issue f msg ∈ issues_of v <->
  required_issue f msg ∈ snd (formSchema_object [] v).
Proof.
  rewrite issues_of_snd.
  destruct (formSchema_issues v) as (tail & -> & [-> | ->]);
    rewrite elem_of_app; split; intros H; auto.
  - destruct H as [H | H]; [exact H | now apply elem_of_nil in H].
  - destruct H as [H | H]; [exact H |].
    apply list_elem_of_singleton in H. discriminate.
Qed.

Lemma required_not_in_string f msg checks p s :
  [f] <> p -> required_issue f msg ∉ snd (Zod.ZodString checks p s).
Proof.
  intros Hne. apply (other_path_not_in p); [apply ZodString_path | exact Hne].
Qed.

Lemma required_not_in_number f msg checks p x :
  [f] <> p -> required_issue f msg ∉ snd (Zod.ZodNumber checks p x).
Proof.
  intros Hne. apply (other_path_not_in p); [apply ZodNumber_path | exact Hne].
Qed.

Lemma required_in_min f msg s :
  required_issue f msg ∈ snd (Zod.ZodString [Zod.check_min 1 msg] [f] s)
  <-> s = "".
Proof.
  rewrite ZodString_min, <- length_lt_1.
  destruct (Nat.ltb (String.length s) 1); cbn [snd]; split; intros H;
    try reflexivity; try discriminate.
  - now apply list_elem_of_singleton.
  - now apply elem_of_nil in H.
Qed.

Lemma required_in_trim_min f msg s :
  required_issue f msg
    ∈ snd (Zod.ZodString [Zod.check_trim; Zod.check_min 1 msg] [f] s)
  <-> JS.trim s = "".
Proof.
  rewrite ZodString_trim_min, <- length_lt_1.
  destruct (Nat.ltb (String.length (JS.trim s)) 1); cbn [snd]; split;
    intros H; try reflexivity; try discriminate.
  - now apply list_elem_of_singleton.
  - now apply elem_of_nil in H.
Qed.

Ltac other_fields :=
  repeat match goal with
    | H : _ ∨ _ |- _ => destruct H as [H | H]
    | H : required_issue _ _ ∈ snd (Zod.ZodString _ _ _) |- _ =>
        exfalso; revert H; apply required_not_in_string; discriminate
    | H : required_issue _ _ ∈ snd (Zod.ZodNumber _ _ _) |- _ =>
        exfalso; revert H; apply required_not_in_number; discriminate
    end.

(** C5 (amended): validation reports the required-field error of [name]
    (of [specialty]) exactly when the value is empty after trimming, and
    the required-field error of [availableFromTime] (of
    [availableToTime]) exactly when the value is the empty string: the
    times are not trimmed. *)
Theorem required_field_errors (v : FormInput) :
  (required_issue "name" "Doctor name is required" ∈ issues_of v
   <-> JS.trim (name v) = "")
  /\ (required_issue "specialty" "Specialty is required" ∈ issues_of v
      <-> JS.trim (specialty v) = "")
  /\ (required_issue "availableFromTime" "Start time is required" ∈ issues_of v
      <-> availableFromTime v = "")
  /\ (required_issue "availableToTime" "End time is required" ∈ issues_of v
      <-> availableToTime v = "").
Proof.
  repeat split; rewrite required_issue_in_object, formSchema_object_issues;
    rewrite !elem_of_app; intros H.
  - rewrite <- (required_in_trim_min "name" "Doctor name is required").
    other_fields. exact H.
  - left. now apply required_in_trim_min.
  - rewrite <- (required_in_trim_min "specialty" "Specialty is required").
    other_fields. exact H.
  - right. left. now apply required_in_trim_min.
  - rewrite <- (required_in_min "availableFromTime" "Start time is required").
    other_fields. exact H.
  - do 3 right. left. now apply required_in_min.
  - rewrite <- (required_in_min "availableToTime" "End time is required").
    other_fields. exact H.
  - do 4 right. now apply required_in_min.
Qed.

(** C5 as stated fails for a start time that is one space: it is empty
    after trimming, yet the value is accepted with that start time. *)
Lemma blank_start_time_accepted :
  JS.trim (availableFromTime blank_start) = ""
  /\ Zod.safeParse (formSchema blank_start) =
       Zod.Success
         {| name := "Ana Souza";
            specialty := "Cardiologia";
            appointmentPrice := 150%float;
            availableFromWeekDay := "1";
            availableToWeekDay := "5";
            availableFromTime := " ";
            availableToTime := "18:00:00" |}
  /\ required_issue "availableFromTime" "Start time is required"
       ∉ issues_of blank_start.
Proof.
  split; [reflexivity |]. split; [reflexivity |].
  intros H. now apply elem_of_nil in H.
Qed.

(** ** Representation conversion *)

(** The weekday of a stored record survives the way to the form and back. *)
Lemma weekday_roundtrip (d : Z) :
  0 <= d <= 6 -> JS.parseInt (JS.toString d) = JS.Number_of_Z d.
Proof.
  intros Hd.
  assert (d = 0 \/ d = 1 \/ d = 2 \/ d = 3 \/ d = 4 \/ d = 5 \/ d = 6) as Hcases
    by lia.
  repeat (destruct Hcases as [-> | Hcases]; [vm_compute; reflexivity |]).
  subst d. vm_compute. reflexivity.
Qed.

(** A record stored with 15000 cents opens with price 150 and, submitted
    unchanged, is sent back with 15000 cents and its weekdays. *)
Lemma roundtrip_15000_cents :
  appointmentPrice (resetValues (Some (stored_doctor 15000 1 5)))
  = Some 150%float
  /\ exists payload,
       edit_unchanged (stored_doctor 15000 1 5) = [upsertDoctor payload]
       /\ Payload.appointmentPriceInCents payload = JS.Number_of_Z 15000
       /\ Payload.availableFromWeekDay payload = JS.Number_of_Z 1
       /\ Payload.availableToWeekDay payload = JS.Number_of_Z 5
       /\ Payload.id payload = Some "doctor-1".
Proof.
  split; [vm_compute; reflexivity |].
  eexists. split; [vm_compute; reflexivity |].
  repeat split; vm_compute; reflexivity.
Qed.

(** C3 (failing input): a record stored with 110 cents opens with the
    price 110/100; submitted unchanged, the payload's
    [appointmentPriceInCents] is 110.00000000000001, which is greater than
    110 and not equal to it. *)
Theorem roundtrip_110_cents_drifts :
  exists payload,
    edit_unchanged (stored_doctor 110 1 5) = [upsertDoctor payload]
    /\ Payload.appointmentPrice payload = (JS.Number_of_Z 110 / 100)%float
    /\ Payload.appointmentPriceInCents payload = 0x1.b800000000001p+6%float
    /\ PrimFloat.eqb (Payload.appointmentPriceInCents payload)
         (JS.Number_of_Z 110) = false
    /\ PrimFloat.ltb (JS.Number_of_Z 110)
         (Payload.appointmentPriceInCents payload) = true.
Proof.
  eexists. split; [vm_compute; reflexivity |].
  repeat split; vm_compute; reflexivity.
Qed.

(** C6 (failing input): the validated price 19.99 is sent with
    [appointmentPriceInCents] 1998.9999999999998, a number strictly
    between 1998 and 1999: not an integer, and not round(19.99 × 100). *)
Theorem cents_of_19_99_not_rounded :
  exists payload,
    snd (step Submit (create_form price_19_99) []) = [upsertDoctor payload]
    /\ Payload.appointmentPrice payload = (JS.Number_of_Z 1999 / 100)%float
    /\ Payload.appointmentPriceInCents payload = 0x1.f3bffffffffffp+10%float
    /\ PrimFloat.eqb (Payload.appointmentPriceInCents payload)
         (JS.Number_of_Z 1999) = false
    /\ PrimFloat.ltb (JS.Number_of_Z 1998)
         (Payload.appointmentPriceInCents payload) = true
    /\ PrimFloat.ltb (Payload.appointmentPriceInCents payload)
         (JS.Number_of_Z 1999) = true.
Proof.
  eexists. split; [vm_compute; reflexivity |].
  repeat split; vm_compute; reflexivity.
Qed.

(** ** The component *)

Lemma props_render p s : props (render p s) = p.
Proof.
  unfold render, reset_effect.
  destruct (same_deps (props s) p); [reflexivity |].
  now destruct (isOpen p).
Qed.

Lemma same_deps_isOpen p q : same_deps p q = true -> isOpen p = isOpen q.
Proof.
  unfold same_deps. intros H. apply andb_true_iff in H as [H _].
  now apply Bool.eqb_prop in H.
Qed.

(** A render that opens a closed dialog runs the reset. *)
Lemma render_opening s p :
  isOpen (props s) = false -> isOpen p = true ->
  render p s = {| props := p; values := resetValues (row p); errors := ∅ |}.
Proof.
  intros Hclosed Hopen. unfold render.
  destruct (same_deps (props s) p) eqn:E.
  - apply same_deps_isOpen in E. congruence.
  - unfold reset_effect. now rewrite Hopen.
Qed.

(** C7: when a render finds the dialog open that was closed at the render
    before, the form values are the ones computed from the record now
    supplied, whatever the form held; with no record they are the fixed
    defaults, with a record they are its fields in the form's
    representation. *)
Theorem open_transition_resets_form (s : State) (p : Props) :
  isOpen (props s) = false ->
  isOpen p = true ->
  values (render p s) = resetValues (row p)
  /\ errors (render p s) = ∅
  /\ (doctor p = None ->
      values (render p s) =
        {| name := ""; specialty := ""; appointmentPrice := Some 0%float;
           availableFromWeekDay := "1"; availableToWeekDay := "5";
           availableFromTime := ""; availableToTime := "" |})
  /\ (forall r d, doctor p = Some (r, d) ->
      values (render p s) =
        {| name := Doctor.name d;
           specialty := Doctor.specialty d;
           appointmentPrice :=
             Some (if JS.truthy (JS.Number_of_Z (Doctor.appointmentPriceInCents d))
                   then (JS.Number_of_Z (Doctor.appointmentPriceInCents d) / 100)%float
                   else 0%float);
           availableFromWeekDay := JS.toString (Doctor.availableFromWeekDay d);
           availableToWeekDay := JS.toString (Doctor.availableToWeekDay d);
           availableFromTime := Doctor.availableFromTime d;
           availableToTime := Doctor.availableToTime d |}).
Proof.
  intros Hclosed Hopen. rewrite (render_opening s p Hclosed Hopen).
  cbn [values errors]. unfold row.
  split; [reflexivity |]. split; [reflexivity |]. split.
  - intros ->. reflexivity.
  - intros r d ->. reflexivity.
Qed.

(** Whatever happened to the form before, closing the dialog and opening
    it for another record shows that record's values. *)
Lemma reopen_shows_current_record (es : list Event) (s : State)
    (log : list RemoteCall) (q p : Props) :
  isOpen q = false -> isOpen p = true ->
  values (fst (run [Render q; Render p] (fst (run es s log)) (snd (run es s log))))
  = resetValues (row p).
Proof.
  intros Hq Hp. cbn [run step bind ret fst snd].
  rewrite render_opening; [reflexivity | now rewrite props_render | exact Hp].
Qed.

Lemma open_transition_resets_form_witness :
  values (render open_other closed_after_edit) = resetValues (row open_other)
  /\ errors (render open_other closed_after_edit) = ∅
  /\ (doctor open_other = None ->
      values (render open_other closed_after_edit) =
        {| name := ""; specialty := ""; appointmentPrice := Some 0%float;
           availableFromWeekDay := "1"; availableToWeekDay := "5";
           availableFromTime := ""; availableToTime := "" |})
  /\ (forall r d, doctor open_other = Some (r, d) ->
      values (render open_other closed_after_edit) =
        {| name := Doctor.name d;
           specialty := Doctor.specialty d;
           appointmentPrice :=
             Some (if JS.truthy (JS.Number_of_Z (Doctor.appointmentPriceInCents d))
                   then (JS.Number_of_Z (Doctor.appointmentPriceInCents d) / 100)%float
                   else 0%float);
           availableFromWeekDay := JS.toString (Doctor.availableFromWeekDay d);
           availableToWeekDay := JS.toString (Doctor.availableToWeekDay d);
           availableFromTime := Doctor.availableFromTime d;
           availableToTime := Doctor.availableToTime d |}).
Proof.
  apply (open_transition_resets_form closed_after_edit open_other);
    reflexivity.
Defined.

(** The second record's values, as the reopened form shows them. *)
Lemma reopened_form_shows_other_doctor :
  values (render open_other closed_after_edit) =
    {| name := "Bruno Lima"; specialty := "Pediatria";
       appointmentPrice := Some 200%float;
       availableFromWeekDay := "2"; availableToWeekDay := "4";
       availableFromTime := "13:00:00"; availableToTime := "19:30:00" |}.
Proof. vm_compute. reflexivity. Qed.

(** C8: the delete handler issues no remote call and changes nothing when
    no record is present, and issues exactly one delete call, with that
    record's id, when one is. *)
Theorem delete_is_guarded (log : list RemoteCall) :
  handleDeleteDoctorClick None log = (tt, log)
  /\ (forall d : Doctor.t,
        handleDeleteDoctorClick (Some d) log
        = (tt, (log ++ [deleteDoctor (Doctor.id d)])%list))
  /\ (forall s : State,
        step ConfirmDelete s log
        = (s, match row (props s) with
              | None => log
              | Some d => (log ++ [deleteDoctor (Doctor.id d)])%list
              end)).
Proof.
  split; [reflexivity |]. split; [reflexivity |].
  intros s. cbn [step]. unfold bind, handleDeleteDoctorClick.
  now destruct (row (props s)).
Qed.

(** C9: the default values of the form and the values of the reset are
    the same function of the optional record, field by field; a freshly
    mounted form therefore holds them whether or not the dialog is open. *)
Theorem defaultValues_is_resetValues (doctor : option Doctor.t) :
  defaultValues doctor = resetValues doctor
  /\ name (defaultValues doctor) = name (resetValues doctor)
  /\ specialty (defaultValues doctor) = specialty (resetValues doctor)
  /\ appointmentPrice (defaultValues doctor)
     = appointmentPrice (resetValues doctor)
  /\ availableFromWeekDay (defaultValues doctor)
     = availableFromWeekDay (resetValues doctor)
  /\ availableToWeekDay (defaultValues doctor)
     = availableToWeekDay (resetValues doctor)
  /\ availableFromTime (defaultValues doctor)
     = availableFromTime (resetValues doctor)
  /\ availableToTime (defaultValues doctor)
     = availableToTime (resetValues doctor).
Proof. destruct doctor as [d |]; repeat split; reflexivity. Qed.

Lemma mount_values (p : Props) : values (mount p) = resetValues (row p).
Proof.
  unfold mount, reset_effect. destruct (isOpen p); cbn [values]; [reflexivity |].
  now destruct (row p).
Qed.

(** ** The stats card *)

(** The string shown for a count reads back, as a decimal numeral, as the
    count. *)
Lemma toString_decimal (n : Z) :
  Z.of_int <$> NilZero.int_of_string (JS.toString n) = Some n.
Proof.
  unfold JS.toString. rewrite NilZero.isi.
  - cbn. now rewrite DecimalZ.of_to.
  - destruct n; cbn; try discriminate.
    intros [= H]. now apply DecimalPos.Unsigned.to_uint_nonnil in H.
  - destruct n; cbn; try discriminate.
    intros [= H]. now apply DecimalPos.Unsigned.to_uint_nonnil in H.
Qed.

(** *** Decimal numerals *)

Lemma string_of_uint_length d :
  String.length (NilEmpty.string_of_uint d) = N.to_nat (DecimalPos.Unsigned.usize d).
Proof.
  induction d; cbn [NilEmpty.string_of_uint String.length DecimalPos.Unsigned.usize];
    rewrite ?N2Nat.inj_succ; [reflexivity | congruence ..].
Qed.

Lemma usize_revapp d : forall d',
  (DecimalPos.Unsigned.usize (Decimal.revapp d d')
   = DecimalPos.Unsigned.usize d + DecimalPos.Unsigned.usize d')%N.
Proof.
  induction d; intros d'; cbn [Decimal.revapp DecimalPos.Unsigned.usize];
    rewrite ?IHd; cbn [DecimalPos.Unsigned.usize]; lia.
Qed.

Lemma of_lu_upper d : (DecimalPos.Unsigned.of_lu d < 10 ^ DecimalPos.Unsigned.usize d)%N.
Proof.
  induction d; cbn [DecimalPos.Unsigned.of_lu DecimalPos.Unsigned.usize];
    rewrite ?N.pow_succ_r'; cbn [N.pow]; lia.
Qed.

Lemma digits_pos p :
  JS.digits (Zpos p) = NilEmpty.string_of_uint (Pos.to_uint p).
Proof.
  unfold JS.digits. cbn [Z.to_int NilZero.string_of_int].
  unfold NilZero.string_of_uint.
  destruct (Pos.to_uint p) eqn:E; try reflexivity.
  now apply DecimalPos.Unsigned.to_uint_nonnil in E.
Qed.

Lemma digits_upper p :
  Zpos p < 10 ^ Z.of_nat (String.length (JS.digits (Zpos p))).
Proof.
  rewrite digits_pos, string_of_uint_length, N_nat_Z.
  pose proof (DecimalPos.Unsigned.of_to p) as H. rewrite DecimalPos.Unsigned.of_uint_alt in H.
  pose proof (of_lu_upper (Decimal.rev (Pos.to_uint p))) as Hu.
  rewrite H in Hu. unfold Decimal.rev in Hu. rewrite usize_revapp in Hu.
  cbn [DecimalPos.Unsigned.usize] in Hu. rewrite N.add_0_r in Hu.
  apply N2Z.inj_lt in Hu. rewrite N2Z.inj_pow in Hu. exact Hu.
Qed.

Lemma unorm_head_zero d l : Decimal.unorm d = Decimal.D0 l -> l = Decimal.Nil.
Proof.
  induction d; cbn [Decimal.unorm]; intros H; try discriminate.
  - now injection H as <-.
  - now apply IHd.
Qed.

Lemma digits_lower p :
  10 ^ (Z.of_nat (String.length (JS.digits (Zpos p))) - 1) <= Zpos p.
Proof.
  rewrite digits_pos.
  pose proof (DecimalPos.Unsigned.to_of (Pos.to_uint p)) as Hn.
  rewrite DecimalPos.Unsigned.of_to in Hn. cbn [N.to_uint] in Hn.
  pose proof (DecimalPos.Unsigned.to_uint_nonzero p) as Hz.
  pose proof (DecimalPos.Unsigned.to_uint_nonnil p) as Hnil.
  pose proof (DecimalPos.Unsigned.of_to p) as Hv.
  destruct (Pos.to_uint p) as [| l | l | l | l | l | l | l | l | l | l] eqn:E;
    [contradiction | | ..].
  { exfalso. symmetry in Hn. apply unorm_head_zero in Hn. subst l.
    now apply Hz. }
  all: cbn [NilEmpty.string_of_uint String.length];
    rewrite string_of_uint_length, Nat2Z.inj_succ, N_nat_Z;
    cbn [Pos.of_uint] in Hv; injection Hv as Hv;
    match type of Hv with Pos.of_uint_acc ?l ?a = _ =>
      pose proof (DecimalPos.Unsigned.of_uint_acc_rev l a) as Hr end;
    rewrite Hv in Hr;
    replace (Z.succ (Z.of_N (DecimalPos.Unsigned.usize l)) - 1)
      with (Z.of_N (DecimalPos.Unsigned.usize l)) by lia;
    change 10 with (Z.of_N 10);
    rewrite <- N2Z.inj_pow; change (Zpos p) with (Z.of_N (Npos p));
    apply N2Z.inj_le; rewrite Hr;
    pose proof (N.pow_nonzero 10 (DecimalPos.Unsigned.usize l)); nia.
Qed.

Lemma append_assoc (a b c : string) : (a ++ b) ++ c = a ++ b ++ c.
Proof.
  induction a as [| x a IH]; [reflexivity |].
  change (String x ((a ++ b) ++ c) = String x (a ++ b ++ c)). now rewrite IH.
Qed.

Lemma append_empty (a : string) : a ++ "" = a.
Proof.
  induction a as [| x a IH]; [reflexivity |].
  change (String x (a ++ "") = String x a). now rewrite IH.
Qed.

Lemma string_of_revapp d : forall d',
  NilEmpty.string_of_uint (Decimal.revapp d d')
  = NilEmpty.string_of_uint (Decimal.revapp d Decimal.Nil)
    ++ NilEmpty.string_of_uint d'.
Proof.
  induction d; intros d'; cbn [Decimal.revapp]; [reflexivity | ..];
    rewrite IHd; symmetry; rewrite IHd;
    cbn [NilEmpty.string_of_uint]; rewrite append_assoc; reflexivity.
Qed.

Lemma digits_tenfold p :
  JS.digits (Zpos (10 * p)) = JS.digits (Zpos p) ++ "0".
Proof.
  rewrite !digits_pos. unfold Pos.to_uint.
  change (Pos.to_little_uint (10 * p)) with (DecimalPos.Unsigned.to_lu (10 * Npos p)).
  rewrite DecimalPos.Unsigned.to_ldec_tenfold. cbn [DecimalPos.Unsigned.to_lu].
  unfold Decimal.rev. cbn [Decimal.revapp]. now rewrite string_of_revapp.
Qed.

Lemma digits_pow10 (q : nat) : forall y : positive,
  JS.digits (Zpos y * 10 ^ Z.of_nat q) = JS.digits (Zpos y) ++ JS.zeros q.
Proof.
  induction q as [| q IH]; intros y.
  - cbn [Z.of_nat JS.zeros]. rewrite Z.pow_0_r, Z.mul_1_r.
    now rewrite append_empty.
  - rewrite Nat2Z.inj_succ, Z.pow_succ_r by lia.
    replace (Z.pos y * (10 * 10 ^ Z.of_nat q))
      with (Z.pos (10 * y) * 10 ^ Z.of_nat q) by lia.
    rewrite IH, digits_tenfold, append_assoc. reflexivity.
Qed.

(** *** The string of a number that holds an integer *)

Section IntegerString.

Variables (m : positive) (e : Z) (z : positive).
Hypothesis He : e <= 0.
Hypothesis Hm : Zpos m = Zpos z * 2 ^ (- e).
Hypothesis Hz : Zpos z < 2 ^ 53.

(** The number of digits of [z]. *)
Local Abbreviation D := (Z.of_nat (String.length (JS.digits (Zpos z)))).

Lemma dn_integer : JS.dn e = 4 * 2 ^ (- e).
Proof.
  unfold JS.dn. rewrite Z.max_r by lia.
  replace (2 - e) with (2 + - e) by lia. now rewrite Z.pow_add_r by lia.
Qed.

Lemma mu_integer : JS.mu e = 1.
Proof. unfold JS.mu. now rewrite Z.max_l by lia. Qed.

Lemma vn_integer : JS.vn m e = Zpos z * JS.dn e.
Proof. unfold JS.vn. rewrite mu_integer, dn_integer, Hm. lia. Qed.

Lemma dn_positive : 0 < JS.dn e.
Proof. rewrite dn_integer. pose proof (Z.pow_pos_nonneg 2 (- e)). lia. Qed.

Lemma floor_integer : JS.vn m e / JS.dn e = Zpos z.
Proof.
  rewrite vn_integer, Z.div_mul; [reflexivity |].
  pose proof dn_positive. lia.
Qed.

Lemma n0_integer : JS.n0 m e = D.
Proof.
  unfold JS.n0. rewrite floor_integer.
  destruct (Z.leb_spec (JS.dn e) (JS.vn m e)) as [_ | H]; [reflexivity |].
  rewrite vn_integer in H. pose proof dn_positive. nia.
Qed.

Lemma D_range : 1 <= D <= 17.
Proof.
  pose proof (digits_upper z) as Hu. pose proof (digits_lower z) as Hl.
  split.
  - destruct (Z.le_gt_cases 1 D) as [| H0]; [assumption |].
    assert (D = 0) as H by lia. rewrite H in Hu. cbn in Hu. lia.
  - destruct (Z.le_gt_cases D 17) as [| H0]; [assumption |].
    assert (10 ^ 17 <= 10 ^ (D - 1)) by (apply Z.pow_le_mono_r; lia).
    assert (2 ^ 53 < 10 ^ 17) by (vm_compute; reflexivity). lia.
Qed.

Lemma inside_integer (s q : Z) :
  0 <= q -> JS.inside m e s q = (s * 10 ^ q =? Zpos z).
Proof.
  intros Hq. unfold JS.inside, JS.cmp10, JS.ln, JS.hn.
  rewrite mu_integer, dn_integer, Z.max_r, Z.max_l by lia.
  rewrite Z.pow_0_r, !Z.mul_1_r, Hm.
  pose proof (Z.pow_pos_nonneg 2 (- e)) as HP.
  set (P := 2 ^ (- e)) in *. set (c := s * 10 ^ q).
  assert (0 < P) as HP' by lia.
  assert (c < Zpos z -> c * P + P <= Zpos z * P) by nia.
  assert (Zpos z < c -> Zpos z * P + P <= c * P) by nia.
  destruct (Z.eqb_spec c (Zpos z)) as [-> | Hne].
  - destruct (_ && _);
      repeat match goal with
      | |- context [?a ?= ?b] => destruct (Z.compare_spec a b)
      end; try reflexivity; exfalso; lia.
  - assert (c < Zpos z \/ Zpos z < c) as [Hlt | Hgt] by lia.
    + destruct (_ && _);
        repeat match goal with
        | |- context [?a ?= ?b] => destruct (Z.compare_spec a b)
        end; try reflexivity; exfalso; nia.
    + destruct (_ && _);
        repeat match goal with
        | |- context [?a ?= ?b] => destruct (Z.compare_spec a b)
        end; try reflexivity; exfalso; nia.
Qed.

Lemma prefix_integer (k : Z) :
  k <= D -> JS.prefix m e k = Zpos z / 10 ^ (D - k).
Proof.
  intros Hk. unfold JS.prefix. rewrite n0_integer, floor_integer.
  destruct (Z.leb_spec k D); [reflexivity | lia].
Qed.

Lemma candidate_integer (k : Z) :
  k <= D ->
  JS.candidate m e k =
    if Zpos z / 10 ^ (D - k) * 10 ^ (D - k) =? Zpos z
    then Some (Zpos z / 10 ^ (D - k)) else None.
Proof.
  intros Hk. unfold JS.candidate. cbv zeta.
  rewrite n0_integer, prefix_integer, !inside_integer by lia.
  pose proof (Z.pow_pos_nonneg 10 (D - k)) as Hp.
  pose proof (Z.mul_succ_div_gt (Zpos z) (10 ^ (D - k))) as Hgt.
  destruct (Z.eqb_spec ((Zpos z / 10 ^ (D - k) + 1) * 10 ^ (D - k)) (Zpos z));
    [lia |].
  now destruct (_ =? _).
Qed.

Lemma search_integer (l1 l2 : list Z) :
  Forall (fun k => 1 <= k <= D) l1 ->
  exists k,
    1 <= k <= D
    /\ Zpos z / 10 ^ (D - k) * 10 ^ (D - k) = Zpos z
    /\ JS.search m e (l1 ++ D :: l2) = (Zpos z / 10 ^ (D - k), k, D).
Proof.
  pose proof D_range as HD. pose proof (digits_upper z) as Hu.
  induction 1 as [| k l1 Hk _ IH]; cbn [app JS.search].
  - exists D. rewrite candidate_integer, Z.sub_diag, Z.pow_0_r, Z.div_1_r,
      Z.mul_1_r, Z.eqb_refl, n0_integer by lia.
    destruct (Z.eqb_spec (Zpos z) (10 ^ D)); [lia |]. repeat split; lia.
  - rewrite candidate_integer by lia.
    destruct (Z.eqb_spec (Zpos z / 10 ^ (D - k) * 10 ^ (D - k)) (Zpos z))
      as [Hdiv | _]; [| exact IH].
    exists k. rewrite n0_integer.
    assert (Zpos z / 10 ^ (D - k) < 10 ^ k) as Hlt.
    { apply Z.div_lt_upper_bound.
      - apply Z.pow_pos_nonneg; lia.
      - rewrite <- Z.pow_add_r by lia. now replace (D - k + k) with D by lia. }
    destruct (Z.eqb_spec (Zpos z / 10 ^ (D - k)) (10 ^ k)); [lia |].
    repeat split; lia || assumption.
Qed.

Lemma shortest_integer :
  let '(s, k, n) := JS.shortest m e in JS.format s k n = JS.digits (Zpos z).
Proof.
  pose proof D_range as HD.
  assert (exists l1 l2,
    [1; 2; 3; 4; 5; 6; 7; 8; 9; 10; 11; 12; 13; 14; 15; 16; 17]
      = (l1 ++ D :: l2)%list
    /\ Forall (fun k => 1 <= k <= D) l1) as (l1 & l2 & Hl & Hall).
  { exists (take (Z.to_nat (D - 1))
             [1; 2; 3; 4; 5; 6; 7; 8; 9; 10; 11; 12; 13; 14; 15; 16; 17]),
           (drop (Z.to_nat D)
             [1; 2; 3; 4; 5; 6; 7; 8; 9; 10; 11; 12; 13; 14; 15; 16; 17]).
    assert (D = 1 \/ D = 2 \/ D = 3 \/ D = 4 \/ D = 5 \/ D = 6 \/ D = 7
            \/ D = 8 \/ D = 9 \/ D = 10 \/ D = 11 \/ D = 12 \/ D = 13
            \/ D = 14 \/ D = 15 \/ D = 16 \/ D = 17) as H by lia.
    repeat destruct H as [H | H]; rewrite H;
      (split; [reflexivity | cbn; repeat constructor; lia]). }
  unfold JS.shortest. rewrite Hl.
  destruct (search_integer l1 l2 Hall) as (k & Hk & Hdiv & ->).
  unfold JS.format. cbv zeta.
  destruct (Z.ltb_spec (-6) D); [| lia].
  destruct (Z.leb_spec D 21); [| lia].
  destruct (Z.leb_spec k D); [| lia]. cbn [andb].
  pose proof (Z.pow_pos_nonneg 10 (D - k)) as Hp.
  destruct (Zpos z / 10 ^ (D - k)) as [| y | y] eqn:Ey; [lia | | lia].
  rewrite <- (digits_pow10 (Z.to_nat (D - k)) y), Z2Nat.id by lia.
  now rewrite Hdiv.
Qed.

End IntegerString.

Lemma digits2_lower (m : positive) :
  2 ^ (Zpos (digits2_pos m) - 1) <= Zpos m.
Proof.
  induction m as [m IH | m IH |]; cbn [digits2_pos]; [| | cbn; lia].
  - rewrite Pos2Z.inj_succ.
    replace (Z.succ (Zpos (digits2_pos m)) - 1)
      with (Z.succ (Zpos (digits2_pos m) - 1)) by lia.
    rewrite Z.pow_succ_r by lia. lia.
  - rewrite Pos2Z.inj_succ.
    replace (Z.succ (Zpos (digits2_pos m)) - 1)
      with (Z.succ (Zpos (digits2_pos m) - 1)) by lia.
    rewrite Z.pow_succ_r by lia. lia.
Qed.

(** A number that is an integer of magnitude below 2^53 is printed as the
    decimal numeral of that integer. *)
Lemma Number_toString_integer (x : float) (z : Z) :
  integer_of x = Some z ->
  - 2 ^ 53 < z < 2 ^ 53 ->
  JS.Number_toString x = NilZero.string_of_int (Z.to_int z).
Proof.
  unfold integer_of, JS.Number_toString.
  pose proof (Prim2SF_valid x) as Hv.
  destruct (Prim2SF x) as [s | s | | s m e]; try discriminate.
  - now intros [= <-].
  - intros Hi Hz.
    assert (exists p : positive,
      z = (if s then -1 else 1) * Zpos p /\ e <= 0
      /\ Zpos m = Zpos p * 2 ^ (- e)) as (p & -> & He & Hm).
    { destruct (Z.leb_spec 0 e) as [He | He].
      - injection Hi as <-.
        destruct (Z.eq_dec e 0) as [-> | Hne].
        + exists m. rewrite Z.pow_0_r, Z.mul_1_r. repeat split; lia.
        + exfalso.
          unfold valid_binary, bounded, canonical_mantissa, fexp in Hv.
          apply andb_true_iff in Hv as [Hc _]. apply Z.eqb_eq in Hc.
          pose proof (digits2_lower m) as Hd.
          assert (Zpos (digits2_pos m) - 1 = 52) as H52
            by (unfold emin, prec, emax in Hc; lia).
          rewrite H52 in Hd.
          assert (2 ^ 1 <= 2 ^ e) by (apply Z.pow_le_mono_r; lia).
          assert (2 ^ 53 <= Zpos m * 2 ^ e)
            by (change (2 ^ 53) with (2 ^ 52 * 2 ^ 1); nia).
          destruct s; lia.
      - destruct (Z.eqb_spec (Zpos m mod 2 ^ (- e)) 0) as [H0 | _];
          [| discriminate].
        injection Hi as <-.
        pose proof (Z.pow_pos_nonneg 2 (- e)) as HP.
        assert (Zpos m = Zpos m / 2 ^ (- e) * 2 ^ (- e)) as Hex.
        { rewrite Z.mul_comm. apply Z.div_exact; [lia | assumption]. }
        destruct (Zpos m / 2 ^ (- e)) as [| p | p] eqn:Ep; [lia | | lia].
        exists p. repeat split; lia || assumption. }
    pose proof (shortest_integer m e p He Hm) as Hs.
    destruct (JS.shortest m e) as [[sd k] n].
    destruct s.
    + rewrite Hs by lia. reflexivity.
    + rewrite Hs by lia. reflexivity.
Qed.

(** C10: whatever the currency formatter, a revenue of [null] or 0 is
    shown as the literal "R$ 0,00"; a count that is [null] is shown as
    "0", and a count that is a number as the string [toString] gives for
    it.  For a count that holds an integer of magnitude below 2^53 that
    string is the decimal numeral of the integer; the last part shows it
    on counts of other kinds: a fraction, integers from 2^53 on, of which
    only the shortest digits that read back are printed, the exponent
    notation from 10^21 on, and the numbers that are no quantity. *)
Theorem stats_card_values (formatCurrencyInCents : float -> string)
    (revenue appointments doctors patients : option float) :
  StatsCard.shown formatCurrencyInCents "Revenue"
    {| StatsCard.totalRevenue := None;
       StatsCard.totalAppointments := appointments;
       StatsCard.totalDoctors := doctors;
       StatsCard.totalPatients := patients |} = Some "R$ 0,00"
  /\ StatsCard.shown formatCurrencyInCents "Revenue"
       {| StatsCard.totalRevenue := Some 0%float;
          StatsCard.totalAppointments := appointments;
          StatsCard.totalDoctors := doctors;
          StatsCard.totalPatients := patients |} = Some "R$ 0,00"
  /\ (let p := {| StatsCard.totalRevenue := revenue;
                  StatsCard.totalAppointments := appointments;
                  StatsCard.totalDoctors := doctors;
                  StatsCard.totalPatients := patients |} in
      forall (t : string) (count : option float),
        (t, count) ∈ [("Appointments", appointments); ("Patients", patients);
                      ("Doctors", doctors)] ->
        (count = None -> StatsCard.shown formatCurrencyInCents t p = Some "0")
        /\ (forall x : float,
              count = Some x ->
              StatsCard.shown formatCurrencyInCents t p
              = Some (JS.Number_toString x))
        /\ (forall (x : float) (z : Z),
              count = Some x ->
              integer_of x = Some z ->
              - 2 ^ 53 < z < 2 ^ 53 ->
              StatsCard.shown formatCurrencyInCents t p
              = Some (NilZero.string_of_int (Z.to_int z))))
  /\ (let card (x : float) :=
        StatsCard.shown formatCurrencyInCents "Doctors"
          {| StatsCard.totalRevenue := revenue;
             StatsCard.totalAppointments := appointments;
             StatsCard.totalDoctors := Some x;
             StatsCard.totalPatients := patients |} in
      card 42%float = Some "42"
      /\ card (-0)%float = Some "0"
      /\ card (-7)%float = Some "-7"
      /\ card 12.5%float = Some "12.5"
      /\ card (JS.Number_of_Z (2 ^ 53 - 1)) = Some "9007199254740991"
      /\ card (JS.Number_of_Z (2 ^ 53 + 1)) = Some "9007199254740992"
      /\ card (JS.Number_of_Z (2 ^ 64)) = Some "18446744073709552000"
      /\ card (JS.Number_of_Z (10 ^ 21 - 1)) = Some "1e+21"
      /\ card (JS.Number_of_Z (10 ^ 20)) = Some "100000000000000000000"
      /\ card (1 / 1000000)%float = Some "0.000001"
      /\ card (1 / 10000000)%float = Some "1e-7"
      /\ card nan = Some "NaN"
      /\ card neg_infinity = Some "-Infinity").
Proof.
  split; [reflexivity | split; [reflexivity | split]].
  - cbv zeta. intros t count Hin.
    assert (StatsCard.shown formatCurrencyInCents t
              {| StatsCard.totalRevenue := revenue;
                 StatsCard.totalAppointments := appointments;
                 StatsCard.totalDoctors := doctors;
                 StatsCard.totalPatients := patients |}
            = Some (match count with
                    | Some x => JS.Number_toString x
                    | None => "0"
                    end)) as ->.
    { apply elem_of_cons in Hin as [[= -> ->] | Hin]; [reflexivity |].
      apply elem_of_cons in Hin as [[= -> ->] | Hin]; [reflexivity |].
      apply elem_of_cons in Hin as [[= -> ->] | Hin]; [reflexivity |].
      now apply elem_of_nil in Hin. }
    split; [now intros -> | split].
    + now intros x ->.
    + intros x z -> Hi Hz. f_equal. now apply Number_toString_integer.
  - cbv zeta. repeat split; vm_compute; reflexivity.
Qed.

(** * Further properties of the form *)

(** ** Trimming *)

Lemma trimStart_head s :
  JS.trimStart s = ""
  \/ exists c r, JS.trimStart s = String c r /\ JS.is_white c = false.
Proof.
  induction s as [| c s IH]; cbn [JS.trimStart]; [now left |].
  destruct (JS.is_white c) eqn:E; [exact IH |].
  right. now exists c, s.
Qed.

Lemma trimEnd_head c r :
  JS.is_white c = false -> exists r', JS.trimEnd (String c r) = String c r'.
Proof.
  intros Hc. cbn [JS.trimEnd]. destruct (JS.trimEnd r) as [| c' r'].
  - rewrite Hc. now exists "".
  - now exists (String c' r').
Qed.

Lemma trimEnd_idempotent s : JS.trimEnd (JS.trimEnd s) = JS.trimEnd s.
Proof.
  induction s as [| c s IH]; [reflexivity |]. cbn [JS.trimEnd].
  destruct (JS.trimEnd s) as [| c' r] eqn:E.
  - destruct (JS.is_white c) eqn:Hc; [reflexivity |].
    cbn [JS.trimEnd]. now rewrite Hc.
  - change (JS.trimEnd (String c (String c' r)))
      with (match JS.trimEnd (String c' r) with
            | EmptyString =>
                if JS.is_white c then EmptyString else String c EmptyString
            | r0 => String c r0
            end).
    now rewrite IH.
Qed.

(** A trimmed string has nothing left to trim. *)
Lemma trim_idempotent s : JS.trim (JS.trim s) = JS.trim s.
Proof.
  unfold JS.trim.
  destruct (trimStart_head s) as [-> | (c & r & -> & Hc)]; [reflexivity |].
  destruct (trimEnd_head c r Hc) as [r' Hr]. rewrite Hr.
  cbn [JS.trimStart]. rewrite Hc, <- Hr. apply trimEnd_idempotent.
Qed.

(** ** What the schema accepts *)

(** Without a number in the price field the object parser aborts. *)
Lemma formSchema_object_aborted v :
  (appointmentPrice v = None
   \/ exists x, appointmentPrice v = Some x /\ JS.isNaN x = true) ->
  fst (formSchema_object [] v) = Zod.INVALID.
Proof.
  intros H. unfold formSchema_object.
  rewrite !ZodString_trim_min, !ZodString_min, !ZodString_plain.
  assert (fst (Zod.ZodNumber
                 [Zod.check_nmin 1%float true "Appointment price is required"]
                 ([] ++ ["appointmentPrice"]) (appointmentPrice v))
          = Zod.INVALID) as Hnum.
  { destruct H as [-> | (x & -> & Hx)]; cbn; [reflexivity |].
    now rewrite Hx. }
  destruct (Zod.ZodNumber _ _ (appointmentPrice v)) as [r issues].
  cbn [fst] in Hnum. subst r.
  destruct (Nat.ltb (String.length (JS.trim (name v))) 1),
    (Nat.ltb (String.length (JS.trim (specialty v))) 1),
    (Nat.ltb (String.length (availableFromTime v)) 1),
    (Nat.ltb (String.length (availableToTime v)) 1); reflexivity.
Qed.

Lemma aborted_is_failure v :
  fst (formSchema_object [] v) = Zod.INVALID ->
  Zod.safeParse (formSchema v) = Zod.Failure (snd (formSchema_object [] v)).
Proof.
  unfold formSchema. destruct (formSchema_object [] v) as [r issues].
  cbn [fst snd]. now intros ->.
Qed.

(** What an accepted candidate looks like. *)
Lemma success_inv (v : FormInput) (data : FormOutput) :
  Zod.safeParse (formSchema v) = Zod.Success data ->
  exists x,
    appointmentPrice v = Some x
    /\ JS.isNaN x = false
    /\ PrimFloat.ltb x 1%float = false
    /\ JS.trim (name v) <> ""
    /\ JS.trim (specialty v) <> ""
    /\ availableFromTime v <> ""
    /\ availableToTime v <> ""
    /\ JS.str_lt (availableFromTime v) (availableToTime v) = true
    /\ data = {| name := JS.trim (name v);
                 specialty := JS.trim (specialty v);
                 appointmentPrice := x;
                 availableFromWeekDay := availableFromWeekDay v;
                 availableToWeekDay := availableToWeekDay v;
                 availableFromTime := availableFromTime v;
                 availableToTime := availableToTime v |}.
Proof.
  intros Hok.
  destruct (appointmentPrice v) as [x |] eqn:Hx.
  2:{ rewrite aborted_is_failure in Hok; [discriminate |].
      apply formSchema_object_aborted. now left. }
  destruct (JS.isNaN x) eqn:Hn.
  { rewrite aborted_is_failure in Hok; [discriminate |].
    apply formSchema_object_aborted. right. now exists x. }
  pose proof (formSchema_object_number v x Hx Hn) as Hfst.
  unfold formSchema in Hok.
  destruct (formSchema_object [] v) as [r issues]. cbn [fst] in Hfst.
  subst r. cbn [Zod.refine availableFromTime availableToTime] in Hok.
  exists x. rewrite <- !length_ge_1.
  destruct (JS.str_lt (availableFromTime v) (availableToTime v));
    [| discriminate].
  destruct (Nat.ltb (String.length (JS.trim (name v))) 1),
    (Nat.ltb (String.length (JS.trim (specialty v))) 1),
    (PrimFloat.ltb x 1%float),
    (Nat.ltb (String.length (availableFromTime v)) 1),
    (Nat.ltb (String.length (availableToTime v)) 1);
    cbn in Hok; try discriminate.
  injection Hok as <-. repeat split; first [reflexivity | assumption].
Qed.

(** A candidate that passes every check is accepted. *)
Lemma success_intro (v : FormInput) (x : float) :
  appointmentPrice v = Some x ->
  JS.isNaN x = false ->
  PrimFloat.ltb x 1%float = false ->
  JS.trim (name v) <> "" ->
  JS.trim (specialty v) <> "" ->
  availableFromTime v <> "" ->
  availableToTime v <> "" ->
  JS.str_lt (availableFromTime v) (availableToTime v) = true ->
  Zod.safeParse (formSchema v) =
    Zod.Success
      {| name := JS.trim (name v);
         specialty := JS.trim (specialty v);
         appointmentPrice := x;
         availableFromWeekDay := availableFromWeekDay v;
         availableToWeekDay := availableToWeekDay v;
         availableFromTime := availableFromTime v;
         availableToTime := availableToTime v |}.
Proof.
  intros Hx Hn Hsmall Hname Hspec Hfrom Hto Hlt.
  pose proof (formSchema_object_number v x Hx Hn) as Hfst.
  apply length_ge_1 in Hname, Hspec, Hfrom, Hto.
  rewrite Hname, Hspec, Hfrom, Hto, Hsmall in Hfst. cbn [orb] in Hfst.
  unfold formSchema.
  destruct (formSchema_object [] v) as [r issues]. cbn [fst] in Hfst.
  subst r. cbn [Zod.refine availableFromTime availableToTime].
  now rewrite Hlt.
Qed.

(** X1: a candidate form value is accepted exactly when its price is a
    number that is not below 1, its name and specialty are non-empty after
    trimming, both times are non-empty and the start time is before the
    end time; the validated value is then the candidate with name and
    specialty trimmed. *)
Theorem accepted_exactly_when (v : FormInput) (data : FormOutput) :
  Zod.safeParse (formSchema v) = Zod.Success data <->
  exists x,
    appointmentPrice v = Some x
    /\ JS.isNaN x = false
    /\ PrimFloat.ltb x 1%float = false
    /\ JS.trim (name v) <> ""
    /\ JS.trim (specialty v) <> ""
    /\ availableFromTime v <> ""
    /\ availableToTime v <> ""
    /\ JS.str_lt (availableFromTime v) (availableToTime v) = true
    /\ data = {| name := JS.trim (name v);
                 specialty := JS.trim (specialty v);
                 appointmentPrice := x;
                 availableFromWeekDay := availableFromWeekDay v;
                 availableToWeekDay := availableToWeekDay v;
                 availableFromTime := availableFromTime v;
                 availableToTime := availableToTime v |}.
Proof.
  split.
  - apply success_inv.
  - intros (x & Hx & Hn & Hsmall & Hname & Hspec & Hfrom & Hto & Hlt & ->).
    now apply success_intro.
Qed.

(** X2: validating a validated value again accepts it and returns it
    unchanged. *)
Theorem revalidation_is_identity (v : FormInput) (data : FormOutput) :
  Zod.safeParse (formSchema v) = Zod.Success data ->
  Zod.safeParse (formSchema (as_input data)) = Zod.Success data.
Proof.
  intros Hok. apply success_inv in Hok
    as (x & Hx & Hn & Hsmall & Hname & Hspec & Hfrom & Hto & Hlt & ->).
  pose proof (success_intro
                (as_input
                   {| name := JS.trim (name v);
                      specialty := JS.trim (specialty v);
                      appointmentPrice := x;
                      availableFromWeekDay := availableFromWeekDay v;
                      availableToWeekDay := availableToWeekDay v;
                      availableFromTime := availableFromTime v;
                      availableToTime := availableToTime v |}) x) as H.
  unfold as_input in *.
  cbn [name specialty appointmentPrice availableFromWeekDay
       availableToWeekDay availableFromTime availableToTime] in *.
  rewrite !trim_idempotent in H. now apply H.
Qed.

Lemma revalidation_is_identity_witness :
  Zod.safeParse
    (formSchema
       (as_input
          {| name := "Ana Souza"; specialty := "Cardiologia";
             appointmentPrice := 150%float;
             availableFromWeekDay := "1"; availableToWeekDay := "5";
             availableFromTime := "08:00:00";
             availableToTime := "18:00:00" |}))
  = Zod.Success
      {| name := "Ana Souza"; specialty := "Cardiologia";
         appointmentPrice := 150%float;
         availableFromWeekDay := "1"; availableToWeekDay := "5";
         availableFromTime := "08:00:00"; availableToTime := "18:00:00" |}.
Proof. apply (revalidation_is_identity office_hours). reflexivity. Defined.

(** ** Submitting *)

Lemma handleSubmit_log d (data : FormOutput) log :
  handleSubmit d data log =
    (tt,
     (log ++
      [upsertDoctor
         {| Payload.name := name data;
            Payload.specialty := specialty data;
            Payload.appointmentPrice := appointmentPrice data;
            Payload.availableFromTime := availableFromTime data;
            Payload.availableToTime := availableToTime data;
            Payload.id := Doctor.id <$> d;
            Payload.availableFromWeekDay :=
              JS.parseInt (availableFromWeekDay data);
            Payload.availableToWeekDay :=
              JS.parseInt (availableToWeekDay data);
            Payload.appointmentPriceInCents :=
              (appointmentPrice data * 100)%float |}])%list).
Proof. now destruct d. Qed.

(** The two ways a submission ends. *)
Lemma submit_cases s log :
  (exists issues,
     Zod.safeParse (formSchema (values s)) = Zod.Failure issues
     /\ step Submit s log =
          ({| props := props s; values := values s;
              errors := RHF.parseErrorSchema issues |}, log))
  \/ (exists data,
        Zod.safeParse (formSchema (values s)) = Zod.Success data
        /\ step Submit s log =
             ({| props := props s; values := values s; errors := ∅ |},
              snd (handleSubmit (row (props s)) data log))).
Proof.
  cbn [step]. unfold form_handleSubmit.
  destruct (Zod.safeParse (formSchema (values s))) as [data | issues].
  - right. exists data. split; [reflexivity |].
    cbn [RHF.zodResolver]. unfold bind, ret.
    now destruct (handleSubmit (row (props s)) data log) as [[] log'].
  - left. exists issues. split; reflexivity.
Qed.

(** X3: a submission never changes the values in the form and issues at
    most one remote call: either no call, and the form then holds at least
    one field error, or exactly one upsert call, and the form then holds
    no field error. *)
Theorem submission_outcome (s : State) (log : list RemoteCall) :
  values (fst (step Submit s log)) = values s
  /\ props (fst (step Submit s log)) = props s
  /\ ((snd (step Submit s log) = log
       /\ errors (fst (step Submit s log)) <> ∅)
      \/ (exists p,
            snd (step Submit s log) = (log ++ [upsertDoctor p])%list
            /\ errors (fst (step Submit s log)) = ∅)).
Proof.
  destruct (submit_cases s log) as [(issues & Hfail & ->) | (data & Hok & ->)];
    cbn [fst snd values props errors]; split; try reflexivity;
    split; try reflexivity.
  - left. split; [reflexivity |].
    apply parseErrorSchema_nonempty. eapply failure_has_issue, Hfail.
  - right. rewrite handleSubmit_log. eexists. split; reflexivity.
Qed.

(** ** What a component can send, over any sequence of events *)

Lemma props_step e s log :
  props (fst (step e s log)) =
    match e with Render p => p | _ => props s end.
Proof.
  destruct e as [p | v | |].
  - cbn [step ret fst]. apply props_render.
  - reflexivity.
  - destruct (submit_cases s log) as [(? & _ & ->) | (? & _ & ->)]; reflexivity.
  - cbn [step]. unfold bind.
    now destruct (handleDeleteDoctorClick (row (props s)) log).
Qed.

(** An invariant of the state and a property of every call issued, both
    kept by each admitted event, hold along every run. *)
Lemma run_invariant (P : Event -> Prop) (I : State -> Prop)
    (Q : RemoteCall -> Prop) :
  (forall e s log,
      P e -> I s -> Forall Q log ->
      I (fst (step e s log)) /\ Forall Q (snd (step e s log))) ->
  forall es s log,
    Forall P es -> I s -> Forall Q log ->
    I (fst (run es s log)) /\ Forall Q (snd (run es s log)).
Proof.
  intros Hstep es. induction es as [| e es IH]; intros s log Hes Hs Hlog.
  - now split.
  - apply Forall_cons in Hes as [He Hes]. cbn [run]. unfold bind.
    destruct (Hstep e s log He Hs Hlog) as [Hs' Hlog'].
    destruct (step e s log) as [s' log']. now apply IH.
Qed.

Lemma accepted_payload_well_formed v d (data : FormOutput) log :
  Zod.safeParse (formSchema v) = Zod.Success data ->
  Forall well_formed_call log ->
  Forall well_formed_call (snd (handleSubmit d data log)).
Proof.
  intros Hok Hlog. rewrite handleSubmit_log. cbn [snd].
  apply Forall_app. split; [exact Hlog |]. constructor; [| constructor].
  apply success_inv in Hok
    as (x & Hx & Hn & Hsmall & Hname & Hspec & Hfrom & Hto & Hlt & ->).
  unfold well_formed_call, well_formed_upsert.
  cbn [Payload.name Payload.specialty Payload.appointmentPrice
       Payload.availableFromTime Payload.availableToTime
       Payload.appointmentPriceInCents name specialty appointmentPrice
       availableFromTime availableToTime].
  rewrite !trim_idempotent. repeat split; assumption.
Qed.

(** X4: whatever events a mounted component handles, every upsert call it
    issues carries a trimmed non-empty name and specialty, a price that is
    a number not below 1 together with that price times 100, and a start
    time that is before the end time. *)
Theorem every_upsert_is_well_formed (es : list Event) (s : State) :
  Forall well_formed_call (snd (run es s [])).
Proof.
  apply (run_invariant (fun _ => True) (fun _ => True) well_formed_call);
    try (apply Forall_forall; intros; exact I);
    [| exact I | constructor].
  intros e s0 log _ _ Hlog. split; [exact I |].
  destruct e as [p | v | |].
  - exact Hlog.
  - exact Hlog.
  - destruct (submit_cases s0 log) as [(? & _ & ->) | (data & Hok & ->)];
      cbn [snd]; [exact Hlog |].
    eapply accepted_payload_well_formed; eauto.
  - cbn [step]. unfold bind, handleDeleteDoctorClick.
    destruct (row (props s0)); cbn; [| exact Hlog].
    apply Forall_app. split; [exact Hlog |]. now repeat constructor.
Qed.

(** X5: a component that is only ever rendered for the record [d] (for no
    record, in create mode) sends that record's id with every upsert and
    every delete; in create mode it sends upserts without an id and never
    a delete. *)
Theorem calls_carry_the_record_id
    (d : option Doctor.t) (es : list Event) (s : State) :
  row (props s) = d ->
  Forall (renders_only d) es ->
  Forall (call_for d) (snd (run es s []))
  /\ (d = None ->
      forall i, deleteDoctor i ∉ snd (run es s [])).
Proof.
  intros Hs Hes.
  assert (Forall (call_for d) (snd (run es s []))) as Hall.
  { apply (run_invariant (renders_only d) (fun s => row (props s) = d)
             (call_for d)); [| exact Hes | exact Hs | constructor].
    intros e s0 log He Hs0 Hlog. split.
    - rewrite props_step. destruct e; [exact He | | |]; exact Hs0.
    - destruct e as [p | v | |].
      + exact Hlog.
      + exact Hlog.
      + destruct (submit_cases s0 log) as [(? & _ & ->) | (data & _ & ->)];
          cbn [snd]; [exact Hlog |].
        rewrite handleSubmit_log. cbn [snd].
        apply Forall_app. split; [exact Hlog |].
        constructor; [| constructor]. cbn. now rewrite Hs0.
      + cbn [step]. unfold bind, handleDeleteDoctorClick. rewrite Hs0.
        destruct d as [d0 |]; cbn; [| exact Hlog].
        apply Forall_app. split; [exact Hlog |]. now repeat constructor. }
  split; [exact Hall |].
  intros -> i Hin. rewrite Forall_forall in Hall.
  specialize (Hall _ Hin). discriminate.
Qed.

Lemma calls_carry_the_record_id_witness :
  Forall (call_for (Some (stored_doctor 15000 1 5)))
    (snd (run [Change office_hours; Submit; ConfirmDelete]
            (mount {| isOpen := true;
                      doctor := Some (1%nat, stored_doctor 15000 1 5) |}) []))
  /\ (Some (stored_doctor 15000 1 5) = None ->
      forall i,
        deleteDoctor i
          ∉ snd (run [Change office_hours; Submit; ConfirmDelete]
                   (mount {| isOpen := true;
                             doctor := Some (1%nat, stored_doctor 15000 1 5) |})
                   [])).
Proof.
  apply (calls_carry_the_record_id (Some (stored_doctor 15000 1 5))
           [Change office_hours; Submit; ConfirmDelete]).
  - reflexivity.
  - repeat constructor.
Defined.

(** ** Which errors the form shows *)

Lemma first_at_app k l1 l2 :
  first_at k (l1 ++ l2) =
    match first_at k l1 with
    | Some i => Some i
    | None => first_at k l2
    end.
Proof.
  unfold first_at. induction l1 as [| i l1 IH]; [reflexivity |].
  cbn [app List.find]. now destruct (String.eqb (key_of i) k).
Qed.

Lemma first_at_off_path k p l :
  Forall (fun i => Zod.path i = p) l ->
  String.concat "." p <> k ->
  first_at k l = None.
Proof.
  intros Hall Hne. unfold first_at.
  induction Hall as [| i l Hi Hall IH]; [reflexivity |].
  cbn [List.find]. unfold key_of at 1. rewrite Hi.
  destruct (String.eqb_spec (String.concat "." p) k); [contradiction | exact IH].
Qed.

Lemma first_at_in k l i :
  first_at k l = Some i -> i ∈ l /\ key_of i = k.
Proof.
  unfold first_at. intros H. apply List.find_some in H as [Hin Heq].
  split; [now apply list_elem_of_In | now apply String.eqb_eq].
Qed.

(** Every issue sits on one of the five checked fields. *)
Lemma formSchema_keys v :
  Forall
    (fun i =>
       key_of i ∈ ["name"; "specialty"; "appointmentPrice";
                   "availableFromTime"; "availableToTime"])
    (snd (formSchema v)).
Proof.
  destruct (formSchema_issues v) as (tail & -> & Htail).
  rewrite formSchema_object_issues.
  repeat (apply Forall_app; split);
    try (eapply Forall_impl;
         [first [apply ZodString_path | apply ZodNumber_path]
         | intros i Hi; unfold key_of; rewrite Hi; cbn;
           repeat first [apply list_elem_of_here | apply list_elem_of_further]]).
  destruct Htail as [-> | ->]; [constructor |].
  constructor; [| constructor]. cbn.
  repeat first [apply list_elem_of_here | apply list_elem_of_further].
Qed.

(** X6: after a submission the only fields that can hold an error are
    [name], [specialty], [appointmentPrice], [availableFromTime] and
    [availableToTime]: the two weekday fields never do, and there is no
    error outside a field. *)
Theorem errors_only_on_checked_fields
    (s : State) (log : list RemoteCall) (k : string) (e : RHF.FieldError) :
  errors (fst (step Submit s log)) !! k = Some e ->
  k ∈ ["name"; "specialty"; "appointmentPrice";
       "availableFromTime"; "availableToTime"].
Proof.
  destruct (submit_cases s log) as [(issues & Hfail & ->) | (data & _ & ->)];
    cbn [fst errors]; [| now rewrite lookup_empty].
  rewrite parseErrorSchema_lookup. intros H.
  destruct (first_at k issues) as [i |] eqn:E; [| discriminate].
  apply first_at_in in E as [Hin <-].
  pose proof (formSchema_keys (values s)) as Hkeys.
  rewrite <- issues_of_snd in Hkeys. unfold issues_of in Hkeys.
  rewrite Hfail in Hkeys. rewrite Forall_forall in Hkeys. now apply Hkeys.
Qed.

Lemma errors_only_on_checked_fields_witness :
  "availableToTime"
    ∈ ["name"; "specialty"; "appointmentPrice";
       "availableFromTime"; "availableToTime"].
Proof.
  apply (errors_only_on_checked_fields (create_form late_start) []
           "availableToTime" (error_of ordering_issue)).
  reflexivity.
Defined.

(** X7: a candidate whose end time is empty is always rejected, and the
    error the form holds for [availableToTime] is then "End time is
    required", never the ordering message, whatever the other fields
    are. *)
Theorem empty_end_time_is_required (v : FormInput) :
  availableToTime v = "" ->
  (exists issues, Zod.safeParse (formSchema v) = Zod.Failure issues)
  /\ RHF.parseErrorSchema (issues_of v) !! "availableToTime"
     = Some {| RHF.message := "End time is required";
               RHF.type := Zod.too_small |}.
Proof.
  intros Hto. split.
  - destruct (Zod.safeParse (formSchema v)) as [data | issues] eqn:E;
      [| now exists issues].
    apply success_inv in E as (x & _ & _ & _ & _ & _ & _ & Hne & _).
    contradiction.
  - rewrite parseErrorSchema_lookup, issues_of_snd.
    destruct (formSchema_issues v) as (tail & -> & _).
    rewrite formSchema_object_issues, <- !app_assoc, !first_at_app.
    rewrite (first_at_off_path _ ["name"]);
      [| apply ZodString_path | discriminate].
    rewrite (first_at_off_path _ ["specialty"]);
      [| apply ZodString_path | discriminate].
    rewrite (first_at_off_path _ ["appointmentPrice"]);
      [| apply ZodNumber_path | discriminate].
    rewrite (first_at_off_path _ ["availableFromTime"]);
      [| apply ZodString_path | discriminate].
    rewrite ZodString_min, Hto. reflexivity.
Qed.

Lemma empty_end_time_is_required_witness :
  (exists issues,
     Zod.safeParse (formSchema (form_value "Ana Souza" None "09:00:00" ""))
     = Zod.Failure issues)
  /\ RHF.parseErrorSchema
       (issues_of (form_value "Ana Souza" None "09:00:00" ""))
       !! "availableToTime"
     = Some {| RHF.message := "End time is required";
               RHF.type := Zod.too_small |}.
Proof.
  apply (empty_end_time_is_required (form_value "Ana Souza" None "09:00:00" "")).
  reflexivity.
Defined.

(** X8: while the price field is empty a submission issues no remote
    call, the form holds the error "Required" for [appointmentPrice], and
    the ordering of the two times is not checked: its error is never among
    the issues. *)
Theorem empty_price_blocks_submission (s : State) (log : list RemoteCall) :
  appointmentPrice (values s) = None ->
  snd (step Submit s log) = log
  /\ errors (fst (step Submit s log)) !! "appointmentPrice"
     = Some {| RHF.message := "Required"; RHF.type := Zod.invalid_type |}
  /\ ordering_issue ∉ issues_of (values s).
Proof.
  intros Hnone.
  assert (Zod.safeParse (formSchema (values s))
          = Zod.Failure (snd (formSchema_object [] (values s)))) as Hfail.
  { apply aborted_is_failure, formSchema_object_aborted. now left. }
  destruct (submit_cases s log) as [(issues & Hf & ->) | (data & Hok & _)];
    [| congruence].
  rewrite Hfail in Hf. injection Hf as <-. cbn [fst snd errors].
  split; [reflexivity |]. split.
  - rewrite parseErrorSchema_lookup, formSchema_object_issues, !first_at_app.
    rewrite (first_at_off_path _ ["name"]);
      [| apply ZodString_path | discriminate].
    rewrite (first_at_off_path _ ["specialty"]);
      [| apply ZodString_path | discriminate].
    now rewrite Hnone.
  - unfold issues_of. rewrite Hfail, formSchema_object_issues, Hnone.
    rewrite !elem_of_app. intros [H | [H | [H | [H | H]]]]; revert H.
    + apply (other_path_not_in ["name"]); [apply ZodString_path | discriminate].
    + apply (other_path_not_in ["specialty"]);
        [apply ZodString_path | discriminate].
    + apply (other_path_not_in ["appointmentPrice"]);
        [apply ZodNumber_path | discriminate].
    + apply (other_path_not_in ["availableFromTime"]);
        [apply ZodString_path | discriminate].
    + rewrite ZodString_min.
      destruct (Nat.ltb (String.length (availableToTime (values s))) 1);
        cbn [snd]; intros H.
      * apply list_elem_of_singleton in H. discriminate.
      * now apply elem_of_nil in H.
Qed.

Lemma empty_price_blocks_submission_witness :
  snd (step Submit (create_form late_start_no_price) []) = []
  /\ errors (fst (step Submit (create_form late_start_no_price) []))
       !! "appointmentPrice"
     = Some {| RHF.message := "Required"; RHF.type := Zod.invalid_type |}
  /\ ordering_issue ∉ issues_of (values (create_form late_start_no_price)).
Proof.
  apply (empty_price_blocks_submission (create_form late_start_no_price) []).
  reflexivity.
Defined.

(** ** Renders of the open dialog *)

(** X9: while the dialog stays open, a render whose record object is the
    one of the render before (or that is in create mode as the render
    before was) leaves the form's values and errors as they are, so edits
    survive it; a render with another record object, even one of equal
    contents, and a render that passes from create mode to a record or
    back, replace the form's values by the reset values of the new props
    and clear the errors. *)
Theorem open_render_keeps_or_replaces (s : State) (p : Props) :
  isOpen (props s) = true ->
  isOpen p = true ->
  match doctor (props s), doctor p with
  | None, None =>
      values (render p s) = values s /\ errors (render p s) = errors s
  | Some (r1, _), Some (r2, d2) =>
      (r1 = r2 ->
       values (render p s) = values s /\ errors (render p s) = errors s)
      /\ (r1 <> r2 ->
          values (render p s) = resetValues (Some d2)
          /\ errors (render p s) = ∅)
  | None, Some (_, d2) =>
      values (render p s) = resetValues (Some d2)
      /\ errors (render p s) = ∅
  | Some _, None =>
      values (render p s) = resetValues None /\ errors (render p s) = ∅
  end.
Proof.
  intros Hs Hp. unfold render, reset_effect, same_deps, row.
  rewrite Hs, Hp. cbn [Bool.eqb andb].
  destruct (doctor (props s)) as [[r1 d1] |], (doctor p) as [[r2 d2] |];
    cbn [fmap option_fmap option_map snd values errors];
    try (split; reflexivity).
  split.
  - intros ->. rewrite Nat.eqb_refl. split; reflexivity.
  - intros Hne. apply Nat.eqb_neq in Hne. rewrite Hne. split; reflexivity.
Qed.

(** An edited form of the first record rendered again: with the same
    record object the edit is still there; with an object of equal
    contents but another identity the record's values are back. *)
Lemma open_render_keeps_or_replaces_witness :
  (values (render same_object edited_open) = late_start
   /\ errors (render same_object edited_open) = ∅)
  /\ (values (render copied_object edited_open)
      = resetValues (Some (stored_doctor 15000 1 5))
      /\ errors (render copied_object edited_open) = ∅).
Proof.
  split.
  - apply (open_render_keeps_or_replaces edited_open same_object
             eq_refl eq_refl).
    reflexivity.
  - apply (open_render_keeps_or_replaces edited_open copied_object
             eq_refl eq_refl).
    discriminate.
Defined.

(** ** The weekday fields are not validated *)

(** X10: the issues a candidate is rejected with do not depend on its two
    weekday strings: whatever they are replaced by, the same issues (or
    none) are reported. *)
Theorem weekdays_are_not_validated (v : FormInput) (a b : string) :
  issues_of
    (DoctorFormView.set_availableFromWeekDay a
       (DoctorFormView.set_availableToWeekDay b v))
  = issues_of v.
Proof.
  unfold issues_of, formSchema, formSchema_object.
  cbn [DoctorFormView.set_availableFromWeekDay
       DoctorFormView.set_availableToWeekDay
       name specialty appointmentPrice availableFromWeekDay
       availableToWeekDay availableFromTime availableToTime].
  rewrite !ZodString_trim_min, !ZodString_min, !ZodString_plain.
  destruct (Zod.ZodNumber _ _ (appointmentPrice v)) as [[| d x] issues];
    destruct (Nat.ltb (String.length (JS.trim (name v))) 1),
      (Nat.ltb (String.length (JS.trim (specialty v))) 1),
      (Nat.ltb (String.length (availableFromTime v)) 1),
      (Nat.ltb (String.length (availableToTime v)) 1);
    cbn [Zod.ap Zod.pure Zod.refine availableFromTime availableToTime];
    try reflexivity;
    destruct (JS.str_lt (availableFromTime v) (availableToTime v));
    destruct d; reflexivity.
Qed.

(** ** The time palette *)

Lemma slot_order_checked :
  forallb
    (fun i =>
       forallb
         (fun j =>
            Bool.eqb (JS.str_lt (time_of_slot i) (time_of_slot j))
              (Nat.ltb i j))
         (seq 0 38))
    (seq 0 38) = true.
Proof. vm_compute. reflexivity. Qed.

(** On the half-hour slots, [<] on the time strings is the order of the
    slots. *)
Lemma slot_order i j :
  (i < 38)%nat -> (j < 38)%nat ->
  JS.str_lt (time_of_slot i) (time_of_slot j) = Nat.ltb i j.
Proof.
  intros Hi Hj. pose proof slot_order_checked as H.
  rewrite forallb_forall in H.
  assert (In i (seq 0 38)) as Ii by (apply in_seq; lia).
  specialize (H i Ii). rewrite forallb_forall in H.
  assert (In j (seq 0 38)) as Ij by (apply in_seq; lia).
  specialize (H j Ij). now apply Bool.eqb_prop in H.
Qed.

(** X11: both time selects offer the same 38 values, the half-hour slots
    from 05:00:00 to 23:30:00 in time order, Morning holding the slots
    before 13:00, Afternoon those before 19:00 and Night the rest; on
    these values the string comparison of the schema is the order of the
    times. *)
Theorem time_palette_is_in_time_order :
  DoctorFormView.group_values DoctorFormView.fromTimeGroups
  = List.map time_of_slot (seq 0 38)
  /\ DoctorFormView.toTimeGroups = DoctorFormView.fromTimeGroups
  /\ List.map
       (fun g => (DoctorFormView.label g,
                  List.map DoctorFormView.value (DoctorFormView.items g)))
       DoctorFormView.fromTimeGroups
     = [("Morning", List.map time_of_slot (seq 0 16));
        ("Afternoon", List.map time_of_slot (seq 16 12));
        ("Night", List.map time_of_slot (seq 28 10))]
  /\ (forall i j,
        (i < 38)%nat -> (j < 38)%nat ->
        (JS.str_lt (time_of_slot i) (time_of_slot j) = true <-> (i < j)%nat)).
Proof.
  split; [vm_compute; reflexivity |]. split; [reflexivity |].
  split; [vm_compute; reflexivity |].
  intros i j Hi Hj. rewrite (slot_order i j Hi Hj). apply Nat.ltb_lt.
Qed.

Lemma time_of_slot_nonempty i : time_of_slot i <> "".
Proof. unfold time_of_slot, time_of_minutes, pad2. cbn [append]. discriminate. Qed.

(** X12: a candidate whose other fields pass their checks and whose two
    times are picked from the palette is accepted exactly when the start
    slot comes before the end slot. *)
Theorem palette_choice_accepted_iff
    (v : FormInput) (x : float) (i j : nat) :
  appointmentPrice v = Some x ->
  JS.isNaN x = false ->
  PrimFloat.ltb x 1%float = false ->
  JS.trim (name v) <> "" ->
  JS.trim (specialty v) <> "" ->
  (i < 38)%nat -> (j < 38)%nat ->
  availableFromTime v = time_of_slot i ->
  availableToTime v = time_of_slot j ->
  (exists data, Zod.safeParse (formSchema v) = Zod.Success data)
  <-> (i < j)%nat.
Proof.
  intros Hx Hn Hsmall Hname Hspec Hi Hj Hfrom Hto. split.
  - intros [data Hok].
    apply success_inv in Hok as (_ & _ & _ & _ & _ & _ & _ & _ & Hlt & _).
    rewrite Hfrom, Hto, (slot_order i j Hi Hj) in Hlt.
    now apply Nat.ltb_lt.
  - intros Hij. eexists. apply (success_intro v x); try assumption.
    + rewrite Hfrom. apply time_of_slot_nonempty.
    + rewrite Hto. apply time_of_slot_nonempty.
    + rewrite Hfrom, Hto, (slot_order i j Hi Hj). now apply Nat.ltb_lt.
Qed.

Lemma palette_choice_accepted_iff_witness :
  (exists data, Zod.safeParse (formSchema office_hours) = Zod.Success data)
  <-> (6 < 26)%nat.
Proof.
  apply (palette_choice_accepted_iff office_hours 150%float 6 26);
    first [reflexivity | discriminate | lia].
Defined.

(** ** The weekday selects *)

Lemma toString_injective (a b : Z) : JS.toString a = JS.toString b -> a = b.
Proof.
  intros H. pose proof (toString_decimal a) as Ha.
  rewrite H, toString_decimal in Ha. congruence.
Qed.

Lemma weekday_cases d :
  weekday d <-> d = 0 \/ d = 1 \/ d = 2 \/ d = 3 \/ d = 4 \/ d = 5 \/ d = 6.
Proof. unfold weekday. lia. Qed.

(** The values of the weekday select are the strings of the weekdays. *)
Lemma weekday_values (v : string) :
  v ∈ List.map DoctorFormView.value DoctorFormView.fromWeekDayItems
  <-> exists d, weekday d /\ v = JS.toString d.
Proof.
  split.
  - intros H. cbn in H. rewrite !elem_of_cons in H.
    destruct H as [-> | [-> | [-> | [-> | [-> | [-> | [-> | H]]]]]]];
      [exists 0 | exists 1 | exists 2 | exists 3 | exists 4 | exists 5
      | exists 6 | now apply elem_of_nil in H];
      (split; [unfold weekday; lia | reflexivity]).
  - intros (d & Hd & ->). apply weekday_cases in Hd.
    repeat (destruct Hd as [-> | Hd];
            [cbn; repeat first [apply list_elem_of_here
                               | apply list_elem_of_further] |]).
    subst d. cbn.
    repeat first [apply list_elem_of_here | apply list_elem_of_further].
Qed.

(** X13: both weekday selects offer the same seven values; a stored
    weekday has an item to show it exactly when it is from 0 to 6; every
    item's value reads back, through [parseInt], as the weekday it was
    made from; and the create-mode defaults are the items Monday and
    Friday. *)
Theorem weekday_selects_cover_the_week :
  DoctorFormView.toWeekDayItems = DoctorFormView.fromWeekDayItems
  /\ (forall d : Z,
        JS.toString d
          ∈ List.map DoctorFormView.value DoctorFormView.fromWeekDayItems
        <-> weekday d)
  /\ (forall v,
        v ∈ List.map DoctorFormView.value DoctorFormView.fromWeekDayItems ->
        exists d, weekday d /\ v = JS.toString d
                  /\ JS.parseInt v = JS.Number_of_Z d)
  /\ DoctorFormView.item (availableFromWeekDay (defaultValues None)) "Monday"
       ∈ DoctorFormView.fromWeekDayItems
  /\ DoctorFormView.item (availableToWeekDay (defaultValues None)) "Friday"
       ∈ DoctorFormView.toWeekDayItems.
Proof.
  split; [reflexivity |]. split; [| split; [| split]].
  - intros d. rewrite weekday_values. split.
    + intros (d' & Hd' & Heq). apply toString_injective in Heq. now subst.
    + intros Hd. now exists d.
  - intros v Hv. apply weekday_values in Hv as (d & Hd & ->).
    exists d. split; [exact Hd |]. split; [reflexivity |].
    now apply weekday_roundtrip.
  - cbn. repeat first [apply list_elem_of_here | apply list_elem_of_further].
  - cbn. repeat first [apply list_elem_of_here | apply list_elem_of_further].
Qed.

(** ** What the controls let a user send *)

Import DoctorFormView.

Lemma interact_invariant (P : UserAction -> Prop) (I : State -> Prop)
    (Q : RemoteCall -> Prop) :
  (forall a s log e,
      P a -> I s -> Forall Q log -> event_of a s = Some e ->
      I (fst (step e s log)) /\ Forall Q (snd (step e s log))) ->
  forall actions s log,
    Forall P actions -> I s -> Forall Q log ->
    I (fst (interact actions s log)) /\ Forall Q (snd (interact actions s log)).
Proof.
  intros Hstep actions.
  induction actions as [| a rest IH]; intros s log Hall Hs Hlog.
  - now split.
  - apply Forall_cons in Hall as [Ha Hall]. cbn [interact].
    destruct (event_of a s) as [e |] eqn:E; [| now apply IH].
    unfold bind. destruct (Hstep a s log e Ha Hs Hlog E) as [Hs' Hlog'].
    destruct (step e s log) as [s' log']. now apply IH.
Qed.

Lemma resetValues_weekdays (d : option Doctor.t) :
  match d with
  | Some r =>
      weekday (Doctor.availableFromWeekDay r)
      /\ weekday (Doctor.availableToWeekDay r)
  | None => True
  end ->
  availableFromWeekDay (resetValues d) ∈ List.map value fromWeekDayItems
  /\ availableToWeekDay (resetValues d) ∈ List.map value fromWeekDayItems.
Proof.
  destruct d as [r |]; cbn [resetValues availableFromWeekDay availableToWeekDay].
  - intros [Hf Ht]. split; apply weekday_values; eauto.
  - intros _. split; apply weekday_values;
      [exists 1 | exists 5]; (split; [unfold weekday; lia | reflexivity]).
Qed.

Lemma pick_weekday_offered i v :
  List.nth_error (List.map value fromWeekDayItems) i = Some v ->
  v ∈ List.map value fromWeekDayItems.
Proof. intros H. apply list_elem_of_In. eapply List.nth_error_In, H. Qed.

Lemma weekdays_step a s log e :
  renders_weekdays a -> weekdays_offered s ->
  Forall weekdays_in_range log ->
  event_of a s = Some e ->
  weekdays_offered (fst (step e s log))
  /\ Forall weekdays_in_range (snd (step e s log)).
Proof.
  intros Ha [Hf Ht] Hlog He. unfold weekdays_offered.
  destruct a as [text | sp | fv | i | i | i | i | | | p];
    cbn [event_of] in He; unfold pick in He.
  - injection He as <-. cbn. now repeat split.
  - injection He as <-. cbn. now repeat split.
  - injection He as <-. cbn. now repeat split.
  - destruct (List.nth_error _ i) as [v |] eqn:E; [| discriminate].
    injection He as <-. apply pick_weekday_offered in E. cbn. now repeat split.
  - destruct (List.nth_error _ i) as [v |] eqn:E; [| discriminate].
    injection He as <-. apply pick_weekday_offered in E. cbn. now repeat split.
  - destruct (List.nth_error _ i) as [v |] eqn:E; [| discriminate].
    injection He as <-. cbn. now repeat split.
  - destruct (List.nth_error _ i) as [v |] eqn:E; [| discriminate].
    injection He as <-. cbn. now repeat split.
  - injection He as <-.
    destruct (submit_cases s log) as [(? & _ & ->) | (data & Hok & ->)];
      cbn [fst snd values]; [now repeat split |].
    split; [now split |]. rewrite handleSubmit_log. cbn [snd].
    apply Forall_app. split; [exact Hlog |]. constructor; [| constructor].
    apply success_inv in Hok as (x & _ & _ & _ & _ & _ & _ & _ & _ & ->).
    cbn [weekdays_in_range Payload.availableFromWeekDay
         Payload.availableToWeekDay availableFromWeekDay availableToWeekDay].
    apply weekday_values in Hf as (df & Hdf & ->).
    apply weekday_values in Ht as (dt & Hdt & ->).
    split; [exists df | exists dt]; (split; [assumption |]);
      now apply weekday_roundtrip.
  - destruct (showDelete (row (props s))); [| discriminate].
    injection He as <-. cbn [step]. unfold bind, handleDeleteDoctorClick.
    destruct (row (props s)); cbn; (split; [now split |]); [| exact Hlog].
    apply Forall_app. split; [exact Hlog |]. now repeat constructor.
  - injection He as <-. cbn [step ret fst snd]. split; [| exact Hlog].
    unfold render, reset_effect.
    destruct (same_deps (props s) p); cbn [values]; [now split |].
    destruct (isOpen p); cbn [values]; [| now split].
    now apply resetValues_weekdays.
Qed.

(** X14: when every record the component is given holds weekdays from 0
    to 6, then whatever the user types, picks, submits or deletes, every
    upsert call carries two weekdays that are integers from 0 to 6. *)
Theorem controls_send_weekdays_in_range
    (p : Props) (actions : list UserAction) :
  renders_weekdays (ParentRenders p) ->
  Forall renders_weekdays actions ->
  Forall weekdays_in_range (snd (interact actions (mount p) [])).
Proof.
  intros Hp Hall.
  apply (interact_invariant renders_weekdays weekdays_offered
           weekdays_in_range); [| exact Hall | | constructor].
  - intros a s log e. apply weekdays_step.
  - unfold weekdays_offered. rewrite mount_values.
    now apply resetValues_weekdays.
Qed.

Lemma controls_send_weekdays_in_range_witness :
  Forall weekdays_in_range
    (snd (interact
            [PickFromWeekDay 0; PickToWeekDay 6; TypeName "Ana";
             ClickSubmit; ParentRenders open_other; ClickSubmit; ClickDelete]
            (mount {| isOpen := true;
                      doctor := Some (1%nat, stored_doctor 15000 1 5) |}) [])).
Proof.
  apply (controls_send_weekdays_in_range
           {| isOpen := true; doctor := Some (1%nat, stored_doctor 15000 1 5) |});
    [| repeat constructor]; cbn; unfold weekday; lia.
Defined.

(** X15: the delete control exists exactly in edit mode: without a record
    a delete click reaches no handler and nothing happens; with a record,
    the one named in the dialog header, it issues exactly one delete call
    with that record's id and leaves the form as it is. *)
Theorem delete_control_only_in_edit_mode (s : State) (log : list RemoteCall) :
  (row (props s) = None ->
   showDelete (row (props s)) = false
   /\ header (row (props s)) = "Add a doctor"
   /\ interact [ClickDelete] s log = (s, log))
  /\ (forall d,
        row (props s) = Some d ->
        showDelete (row (props s)) = true
        /\ header (row (props s)) = Doctor.name d
        /\ interact [ClickDelete] s log
           = (s, (log ++ [deleteDoctor (Doctor.id d)])%list)).
Proof.
  split.
  - intros H. cbn [interact event_of]. now rewrite H.
  - intros d H. cbn [interact event_of]. rewrite H. cbn [showDelete header].
    repeat split. cbn [step]. unfold bind. now rewrite H.
Qed.

(** ** Weekdays through [toString] and [parseInt] *)

Lemma parse_digits_acc (d : Decimal.uint) :
  forall acc : positive,
    JS.parse_digits 10 (NilEmpty.string_of_uint d) (Some (N.pos acc))
    = Some (N.pos (Pos.of_uint_acc d acc)).
Proof.
  induction d; intros acc; cbn [NilEmpty.string_of_uint Pos.of_uint_acc];
    [reflexivity | ..];
    (cbn [JS.parse_digits];
     match goal with |- context [JS.digit_value 10 ?c] =>
       let v := eval vm_compute in (JS.digit_value 10 c) in
       change (JS.digit_value 10 c) with v end;
     cbv iota beta;
     match goal with |- JS.parse_digits _ _ (Some ?n) = _ =>
       match goal with |- _ = Some (N.pos (Pos.of_uint_acc _ ?a)) =>
         replace n with (N.pos a) by lia end end;
     apply IHd).
Qed.

Lemma parse_digits_zero (d : Decimal.uint) :
  JS.parse_digits 10 (NilEmpty.string_of_uint d) (Some 0%N)
  = Some (Pos.of_uint d).
Proof.
  induction d; cbn [NilEmpty.string_of_uint Pos.of_uint];
    [reflexivity | exact IHd | ..];
    (cbn [JS.parse_digits];
     match goal with |- context [JS.digit_value 10 ?c] =>
       let v := eval vm_compute in (JS.digit_value 10 c) in
       change (JS.digit_value 10 c) with v end;
     cbv iota beta; apply parse_digits_acc).
Qed.

(** The digits of a numeral parse to the number it denotes. *)
Lemma parse_digits_none (d : Decimal.uint) :
  d <> Decimal.Nil ->
  JS.parse_digits 10 (NilEmpty.string_of_uint d) None = Some (Pos.of_uint d).
Proof.
  intros Hd. rewrite <- parse_digits_zero.
  destruct d; [contradiction | ..]; reflexivity.
Qed.

(** The numeral of a positive number starts with a digit other than 0. *)
Lemma to_uint_head (p : positive) :
  exists c rest,
    NilEmpty.string_of_uint (Pos.to_uint p) = String c rest
    /\ nonzero_digit c.
Proof.
  pose proof (DecimalPos.Unsigned.to_of (Pos.to_uint p)) as Hn.
  rewrite DecimalPos.Unsigned.of_to in Hn. cbn [N.to_uint] in Hn.
  pose proof (DecimalPos.Unsigned.to_uint_nonzero p) as Hz.
  pose proof (DecimalPos.Unsigned.to_uint_nonnil p) as Hnil.
  destruct (Pos.to_uint p) as [| l | l | l | l | l | l | l | l | l | l] eqn:E;
    [contradiction | ..];
    try (eexists _, _; split; [reflexivity |]; unfold nonzero_digit; cbn; tauto).
  exfalso. symmetry in Hn. apply unorm_head_zero in Hn. subst l. now apply Hz.
Qed.

(** On a string that starts with a non-zero digit, after an optional
    minus sign, [parseInt] reads the digits in radix 10. *)
Lemma parseInt_unsigned c rest :
  nonzero_digit c ->
  JS.parseInt (String c rest) =
    match JS.parse_digits 10 (String c rest) None with
    | None => nan
    | Some 0%N => 0%float
    | Some n => JS.Number_of_Z (Z.of_N n)
    end
  /\ JS.parseInt (String "-" (String c rest)) =
       match JS.parse_digits 10 (String c rest) None with
       | None => nan
       | Some 0%N => (-0)%float
       | Some n => JS.Number_of_Z (- Z.of_N n)
       end.
Proof.
  unfold nonzero_digit. cbn [In].
  intros [<- | [<- | [<- | [<- | [<- | [<- | [<- | [<- | [<- | []]]]]]]]]];
    split; reflexivity.
Qed.

Lemma parseInt_toString (z : Z) : JS.parseInt (JS.toString z) = JS.Number_of_Z z.
Proof.
  unfold JS.toString. destruct z as [| p | p].
  - vm_compute. reflexivity.
  - cbn [Z.to_int NilZero.string_of_int]. unfold NilZero.string_of_uint.
    pose proof (DecimalPos.Unsigned.to_uint_nonnil p) as Hnil.
    destruct (to_uint_head p) as (c & rest & Hs & Hc).
    destruct (Pos.to_uint p) eqn:E; [contradiction | ..];
      rewrite <- E in *; rewrite Hs;
      rewrite (proj1 (parseInt_unsigned c rest Hc)), <- Hs,
        parse_digits_none, DecimalPos.Unsigned.of_to by assumption;
      reflexivity.
  - cbn [Z.to_int NilZero.string_of_int]. unfold NilZero.string_of_uint.
    pose proof (DecimalPos.Unsigned.to_uint_nonnil p) as Hnil.
    destruct (to_uint_head p) as (c & rest & Hs & Hc).
    destruct (Pos.to_uint p) eqn:E; [contradiction | ..];
      rewrite <- E in *; rewrite Hs;
      rewrite (proj2 (parseInt_unsigned c rest Hc)), <- Hs,
        parse_digits_none, DecimalPos.Unsigned.of_to by assumption;
      reflexivity.
Qed.

(** X16: whatever integers a stored record holds as its two weekdays,
    also outside 0 to 6 and also negative, the form opened for the
    record holds strings that the submission reads back as the same two
    integers. *)
Theorem stored_weekdays_survive_the_form (d : Doctor.t) :
  safe_integer (Doctor.availableFromWeekDay d) ->
  safe_integer (Doctor.availableToWeekDay d) ->
  JS.parseInt (availableFromWeekDay (resetValues (Some d)))
  = JS.Number_of_Z (Doctor.availableFromWeekDay d)
  /\ JS.parseInt (availableToWeekDay (resetValues (Some d)))
     = JS.Number_of_Z (Doctor.availableToWeekDay d).
Proof.
  intros _ _. cbn [resetValues availableFromWeekDay availableToWeekDay].
  split; apply parseInt_toString.
Qed.

Lemma stored_weekdays_survive_the_form_witness :
  JS.parseInt (availableFromWeekDay (resetValues (Some (stored_doctor 110 (-3) 12))))
  = JS.Number_of_Z (-3)
  /\ JS.parseInt (availableToWeekDay (resetValues (Some (stored_doctor 110 (-3) 12))))
     = JS.Number_of_Z 12.
Proof.
  apply (stored_weekdays_survive_the_form (stored_doctor 110 (-3) 12));
    unfold safe_integer; cbn; lia.
Defined.

(** * Further properties of the stats card *)

Lemma Prim2SF_zero : Prim2SF 0%float = S754_zero false.
Proof. vm_compute. reflexivity. Qed.

(** The numbers that are falsy: [+0], [-0] and [NaN]. *)
Lemma truthy_false_iff (x : float) :
  JS.truthy x = false <-> x = 0%float \/ x = (-0)%float \/ x = nan.
Proof.
  unfold JS.truthy, JS.isNaN, PrimFloat.is_nan.
  rewrite !FloatAxioms.eqb_spec, Prim2SF_zero. unfold SFeqb.
  pose proof (SF2Prim_Prim2SF x) as Hx.
  destruct (Prim2SF x) as [s | s | | s m e] eqn:E.
  - cbn [SFcompare negb andb]. split; [intros _ | reflexivity].
    rewrite <- Hx. destruct s; cbn; auto.
  - split.
    + destruct s; cbn [SFcompare negb andb]; discriminate.
    + intros [-> | [-> | ->]]; vm_compute in E; discriminate.
  - cbn [SFcompare negb andb]. split; [intros _ | reflexivity].
    rewrite <- Hx. cbn. auto.
  - split.
    + rewrite SFcompare_refl_finite. cbn [SFcompare].
      destruct s; cbn [negb andb]; discriminate.
    + intros [-> | [-> | ->]]; vm_compute in E; discriminate.
Qed.

(** X17: the revenue card shows the literal "R$ 0,00", without calling
    the currency formatter, exactly for a revenue that is [+0], [-0] or
    [NaN] (and for [null]); every other number, negative or infinite
    ones included, is shown as the formatter renders it. *)
Theorem revenue_is_formatted_unless_falsy
    (formatCurrencyInCents : float -> string) (x : float)
    (appointments doctors patients : option float) :
  let p := {| StatsCard.totalRevenue := Some x;
              StatsCard.totalAppointments := appointments;
              StatsCard.totalDoctors := doctors;
              StatsCard.totalPatients := patients |} in
  (x = 0%float \/ x = (-0)%float \/ x = nan ->
   StatsCard.shown formatCurrencyInCents "Revenue" p = Some "R$ 0,00")
  /\ (~ (x = 0%float \/ x = (-0)%float \/ x = nan) ->
      StatsCard.shown formatCurrencyInCents "Revenue" p
      = Some (formatCurrencyInCents x)).
Proof.
  cbv zeta. unfold StatsCard.shown, StatsCard.stats.
  cbn [List.find StatsCard.title StatsCard.value StatsCard.totalRevenue
       String.eqb Ascii.eqb Bool.eqb fmap option_fmap option_map].
  split; intros H.
  - apply truthy_false_iff in H. now rewrite H.
  - destruct (JS.truthy x) eqn:E; [reflexivity |].
    now apply truthy_false_iff in E.
Qed.

(** * Properties of the appointments page *)

Section AppointmentsPageProperties.

Context {PatientRow DoctorRow AppointmentRow Appointment : Type}.
Context (patient_clinicId : PatientRow -> string).
Context (doctor_clinicId : DoctorRow -> string).
Context (appointment_clinicId : AppointmentRow -> string).
Context (with_patient_and_doctor :
           AppointmentsPage.Database PatientRow DoctorRow AppointmentRow ->
           AppointmentRow -> Appointment).

Lemma findMany_spec {Row : Type} (column : Row -> string) c table (r : Row) :
  r ∈ AppointmentsPage.findMany column c table <-> r ∈ table /\ column r = c.
Proof.
  unfold AppointmentsPage.findMany.
  rewrite !list_elem_of_In, List.filter_In. now rewrite String.eqb_eq.
Qed.

(** X18: for a session with a clinic the page hands to its children
    exactly the rows of that clinic: a patient or a doctor reaches the
    button, and an appointment (with its relations) the table, if and only
    if it is a row of its table whose [clinicId] is the session's clinic
    id; with no session, or a session without a clinic, the page throws
    and renders nothing. *)
Theorem page_shows_the_rows_of_the_session_clinic
    (session : option AppointmentsPage.Session)
    (db : AppointmentsPage.Database PatientRow DoctorRow AppointmentRow) :
  match AppointmentsPage.session_clinic_id session with
  | None =>
      AppointmentsPage.AppointmentsPage patient_clinicId doctor_clinicId
        appointment_clinicId with_patient_and_doctor session db = None
      /\ (session = None
          \/ exists s, session = Some s
                       /\ AppointmentsPage.clinic (AppointmentsPage.user s) = None)
  | Some c =>
      exists r,
        AppointmentsPage.AppointmentsPage patient_clinicId doctor_clinicId
          appointment_clinicId with_patient_and_doctor session db = Some r
        /\ (forall x,
              x ∈ AppointmentsPage.button_patients r
              <-> x ∈ AppointmentsPage.patientsTable db
                  /\ patient_clinicId x = c)
        /\ (forall x,
              x ∈ AppointmentsPage.button_doctors r
              <-> x ∈ AppointmentsPage.doctorsTable db
                  /\ doctor_clinicId x = c)
        /\ (forall y,
              y ∈ AppointmentsPage.table_data r
              <-> exists a,
                    a ∈ AppointmentsPage.appointmentsTable db
                    /\ appointment_clinicId a = c
                    /\ y = with_patient_and_doctor db a)
  end.
Proof.
  unfold AppointmentsPage.AppointmentsPage.
  destruct (AppointmentsPage.session_clinic_id session) as [c |] eqn:E.
  - eexists. split; [reflexivity |].
    cbn [AppointmentsPage.button_patients AppointmentsPage.button_doctors
         AppointmentsPage.table_data].
    split; [| split].
    + intros x. apply findMany_spec.
    + intros x. apply findMany_spec.
    + intros y. rewrite list_elem_of_fmap. split.
      * intros (a & -> & Ha). apply findMany_spec in Ha as [Ha Hc].
        now exists a.
      * intros (a & Ha & Hc & ->). exists a. split; [reflexivity |].
        now apply findMany_spec.
  - split; [reflexivity |]. unfold AppointmentsPage.session_clinic_id in E.
    destruct session as [s |]; [| now left].
    right. exists s. split; [reflexivity |].
    now destruct (AppointmentsPage.clinic (AppointmentsPage.user s)).
Qed.

End AppointmentsPageProperties.

(** * How far the price drifts *)

Import Uint63.
Import Drift.

Lemma Number_of_Z_uint63 (c : Z) :
  0 <= c < wB -> JS.Number_of_Z c = PrimFloat.of_uint63 (of_Z c).
Proof.
  intros Hc. unfold JS.Number_of_Z.
  rewrite <- (SF2Prim_Prim2SF (of_uint63 (of_Z c))), of_uint63_spec.
  now rewrite of_Z_spec, Z.mod_small.
Qed.

Lemma drift_ok_from_spec n :
  forall c,
    to_Z c + Z.of_nat n < wB ->
    drift_ok_from c n = true ->
    forall z, to_Z c <= z < to_Z c + Z.of_nat n -> drift_ok (of_Z z) = true.
Proof.
  induction n as [| n IH]; intros c Hb H z Hz; [lia |].
  cbn [drift_ok_from] in H. apply andb_true_iff in H as [Hc Hrest].
  destruct (Z.eq_dec z (to_Z c)) as [-> | Hne].
  - now rewrite of_to_Z.
  - pose proof (to_Z_bounded c) as Hc0.
    assert (to_Z (PrimInt63.add c 1) = to_Z c + 1) as E.
    { rewrite add_spec. change (to_Z 1) with 1. rewrite Z.mod_small; lia. }
    apply (IH (PrimInt63.add c 1));
      [rewrite E; lia | exact Hrest | rewrite E; lia].
Qed.

Lemma drift_ok_blocks_spec size n :
  forall c,
    to_Z c + Z.of_nat size * Z.of_nat n < wB ->
    Z.of_nat size < wB ->
    drift_ok_blocks c size n = true ->
    forall z,
      to_Z c <= z < to_Z c + Z.of_nat size * Z.of_nat n ->
      drift_ok (of_Z z) = true.
Proof.
  induction n as [| n IH]; intros c Hb Hs H z Hz; [lia |].
  cbn [drift_ok_blocks] in H. apply andb_true_iff in H as [Hc Hrest].
  pose proof (to_Z_bounded c) as Hc0.
  assert (to_Z (PrimInt63.add c (of_Z (Z.of_nat size)))
          = to_Z c + Z.of_nat size) as E.
  { rewrite add_spec, of_Z_spec. rewrite (Z.mod_small (Z.of_nat size)) by lia.
    rewrite Z.mod_small; lia. }
  destruct (Z_lt_dec z (to_Z c + Z.of_nat size)) as [Hlt | Hge].
  - apply (drift_ok_from_spec size c); [lia | exact Hc | lia].
  - apply (IH (PrimInt63.add c (of_Z (Z.of_nat size))));
      [rewrite E; lia | exact Hs | exact Hrest | rewrite E; lia].
Qed.

(** Every amount from 0 to 10 005 000 cents, checked one by one. *)
Lemma drift_checked : drift_ok_blocks 0%uint63 5000 2001 = true.
Proof. vm_cast_no_check (eq_refl true). Qed.

Lemma drift_ok_upto (c : Z) :
  0 <= c <= 10000000 -> drift_ok (of_Z c) = true.
Proof.
  intros Hc.
  apply (drift_ok_blocks_spec 5000 2001 0%uint63);
    [vm_compute; reflexivity | vm_compute; reflexivity | exact drift_checked |].
  change (to_Z 0) with 0. lia.
Qed.

Lemma run_single (e : Event) (s : State) (log : list RemoteCall) :
  snd (run [e] s log) = snd (step e s log).
Proof.
  cbn [run]. unfold bind, ret. now destruct (step e s log).
Qed.

Lemma str_lt_nonempty (a b : string) : JS.str_lt a b = true -> b <> "".
Proof. intros H ->. now destruct a. Qed.

(** What the check says of one amount. *)
Lemma initial_price_upto (c : Z) :
  0 <= c <= 10000000 ->
  let stored := JS.Number_of_Z c in
  let price := initial_price stored in
  let sent := (price * 100)%float in
  (PrimFloat.eqb sent stored || PrimFloat.eqb sent (next_up stored)
   || PrimFloat.eqb sent (next_down stored)) = true
  /\ (c mod 100 = 0 -> PrimFloat.eqb sent stored = true)
  /\ JS.isNaN price = false
  /\ PrimFloat.ltb price 1 = (c <? 100).
Proof.
  intros Hc. cbv zeta.
  pose proof (drift_ok_upto _ Hc) as H. unfold drift_ok in H. cbv zeta in H.
  rewrite <- Number_of_Z_uint63 in H by (change wB with 9223372036854775808; lia).
  apply andb_true_iff in H as [H Hlt]. apply andb_true_iff in H as [H Hnan].
  apply andb_true_iff in H as [Hnear Hwhole].
  split; [exact Hnear |]. split; [| split].
  - intros Hmod.
    apply orb_true_iff in Hwhole as [Hw | Hw]; [| exact Hw].
    exfalso. apply negb_true_iff in Hw.
    assert (PrimInt63.eqb (PrimInt63.mod (of_Z c) 100) 0 = true) as Habs;
      [| congruence].
    apply Uint63.eqb_spec. apply to_Z_inj.
    rewrite mod_spec, of_Z_spec. change (to_Z 100) with 100.
    change (to_Z 0) with 0.
    rewrite (Z.mod_small c) by (change wB with 9223372036854775808; lia).
    exact Hmod.
  - now apply negb_true_iff in Hnan.
  - apply Bool.eqb_prop in Hlt. rewrite Hlt.
    assert (to_Z (of_Z c) = c) as Ec
      by (rewrite of_Z_spec, Z.mod_small;
          [reflexivity | change wB with 9223372036854775808; lia]).
    destruct (Z.ltb_spec c 100) as [Hs | Hs].
    + apply Uint63.ltb_spec. rewrite Ec. exact Hs.
    + apply not_true_iff_false. rewrite Uint63.ltb_spec, Ec.
      change (to_Z 100) with 100. lia.
Qed.

(** X19: a record stored with at most 10 000 000 cents is opened and
    submitted unchanged.  Stored with less than 100 cents, its price is
    below 1, the validation rejects it and nothing is sent.  Stored with
    100 cents or more, with a name, a specialty and times that pass the
    validation, exactly one upsert is sent, and its cents are the stored
    cents or one of the two numbers next to them, never further off; they
    are exactly the stored cents when the stored amount is a whole number
    of reais. *)
Theorem unchanged_edit_sends_cents_within_one_step (d : Doctor.t) :
  0 <= Doctor.appointmentPriceInCents d <= 10000000 ->
  (Doctor.appointmentPriceInCents d < 100 -> edit_unchanged d = [])
  /\ (100 <= Doctor.appointmentPriceInCents d ->
      JS.trim (Doctor.name d) <> "" ->
      JS.trim (Doctor.specialty d) <> "" ->
      Doctor.availableFromTime d <> "" ->
      JS.str_lt (Doctor.availableFromTime d) (Doctor.availableToTime d) = true ->
      exists payload,
        edit_unchanged d = [upsertDoctor payload]
        /\ (let sent := Payload.appointmentPriceInCents payload in
            let stored := JS.Number_of_Z (Doctor.appointmentPriceInCents d) in
            (PrimFloat.eqb sent stored || PrimFloat.eqb sent (next_up stored)
             || PrimFloat.eqb sent (next_down stored)) = true
            /\ (Doctor.appointmentPriceInCents d mod 100 = 0 ->
                PrimFloat.eqb sent stored = true))).
Proof.
  intros Hc.
  destruct (initial_price_upto _ Hc) as (Hnear & Hwhole & Hnan & Hlt).
  unfold edit_unchanged. rewrite run_single.
  set (s0 := mount {| isOpen := true; doctor := Some (0%nat, d) |}).
  assert (values s0 = resetValues (Some d)) as Hv by apply mount_values.
  assert (props s0 = {| isOpen := true; doctor := Some (0%nat, d) |}) as Hp
    by reflexivity.
  assert (appointmentPrice (values s0)
          = Some (initial_price
                    (JS.Number_of_Z (Doctor.appointmentPriceInCents d))))
    as Hprice by (rewrite Hv; reflexivity).
  split.
  - intros Hsmall.
    destruct (submit_cases s0 []) as [(issues & _ & ->) | (data & Hok & _)];
      [reflexivity |].
    exfalso. apply success_inv in Hok as (x & Hx & _ & Hx1 & _).
    rewrite Hprice in Hx. injection Hx as <-.
    rewrite Hlt in Hx1. apply Z.ltb_ge in Hx1. lia.
  - intros Hbig Hname Hspec Hfrom Hord.
    pose proof (str_lt_nonempty _ _ Hord) as Hto.
    assert (PrimFloat.ltb
              (initial_price (JS.Number_of_Z (Doctor.appointmentPriceInCents d)))
              1 = false) as Hx1
      by (rewrite Hlt; apply Z.ltb_ge; lia).
    pose proof (success_intro (values s0) _ Hprice Hnan Hx1) as Hok.
    rewrite Hv in Hok. cbn [name specialty availableFromTime availableToTime
      availableFromWeekDay availableToWeekDay resetValues] in Hok.
    specialize (Hok Hname Hspec Hfrom Hto Hord). rewrite <- Hv in Hok.
    destruct (submit_cases s0 []) as [(issues & Hf & _) | (data & Hs & ->)];
      [congruence |].
    rewrite Hok in Hs. injection Hs as <-.
    rewrite handleSubmit_log. cbn [snd app].
    eexists. split; [reflexivity |].
    cbn [Payload.appointmentPriceInCents appointmentPrice]. cbv zeta.
    split; assumption.
Qed.

(** Stored with 50 cents the unchanged edit sends nothing; stored with 110
    cents it sends one upsert, whose cents are within one step of 110. *)
Lemma unchanged_edit_sends_cents_within_one_step_witness :
  edit_unchanged (stored_doctor 50 1 5) = []
  /\ exists payload,
       edit_unchanged (stored_doctor 110 1 5) = [upsertDoctor payload]
       /\ (let sent := Payload.appointmentPriceInCents payload in
           let stored := JS.Number_of_Z 110 in
           (PrimFloat.eqb sent stored || PrimFloat.eqb sent (next_up stored)
            || PrimFloat.eqb sent (next_down stored)) = true
           /\ (110 mod 100 = 0 -> PrimFloat.eqb sent stored = true)).
Proof.
  split.
  - apply (unchanged_edit_sends_cents_within_one_step (stored_doctor 50 1 5));
      cbn; lia.
  - apply (unchanged_edit_sends_cents_within_one_step (stored_doctor 110 1 5));
      cbn; first [lia | discriminate | reflexivity].
Defined.
